(** * AI-native foundry: the SQL validation pipeline

    A shallow embedding of the validators, the plan analyser, the preview
    executor and the response parsing of the generation route, with the
    properties the specification states about them.

    Text is modelled by [string], one [ascii] per code unit.  The embedding
    is that of ASCII text: on code units below 128 [toUpperCase], [trim]
    and the regular-expression character classes below are the ECMAScript
    ones; other code units are left alone by [toUpperCase] and are neither
    white space nor letters. *)

From Stdlib Require Import String Ascii List Bool Arith ZArith NArith Lia.
From Stdlib Require Import DecimalString.
From Stdlib Require DecimalPos.
Import ListNotations.

Open Scope list_scope.
Open Scope string_scope.

(* ================================================================= *)
(** ** JavaScript strings and exceptions *)

Module Js.

Definition code (c : ascii) : N := N_of_ascii c.

Definition isLowerAlpha (c : ascii) : bool :=
  (97 <=? code c)%N && (code c <=? 122)%N.

Definition isUpperAlpha (c : ascii) : bool :=
  (65 <=? code c)%N && (code c <=? 90)%N.

Definition isDigit (c : ascii) : bool :=
  (48 <=? code c)%N && (code c <=? 57)%N.

(** [\s], the characters removed by [trim] and those skipped by [parseInt]:
    of the white space and the line terminators of ECMAScript, the code
    units below 256 are TAB, LF, VT, FF, CR, SP and NBSP. *)
Definition isSpace (c : ascii) : bool :=
  ((9 <=? code c)%N && (code c <=? 13)%N) || (code c =? 32)%N
  || (code c =? 160)%N.

(** The small letters of the upper half of the range: 224 to 254 without
    the division sign. *)
Definition isLowerLatin (c : ascii) : bool :=
  (224 <=? code c)%N && (code c <=? 254)%N && negb (code c =? 247)%N.

(** The capital of a code unit, where it is one code unit.  The capitals of
    the code units 181 and 255 are U+039C and U+0178, outside the range;
    these two are kept, and no other code unit has them as its capital, so
    that a comparison of upper-cased texts with each other, or with a text
    of code units below 128, comes out as in the code. *)
Definition toUpperChar (c : ascii) : ascii :=
  if isLowerAlpha c || isLowerLatin c then ascii_of_N (code c - 32) else c.

(** The capital of one code unit as a text: that of the sharp s (223) has
    two letters. *)
Definition toUpperUnit (c : ascii) : string :=
  if (code c =? 223)%N then "SS" else String (toUpperChar c) EmptyString.

(** [s.toUpperCase()] *)
Fixpoint toUpperCase (s : string) : string :=
  match s with
  | EmptyString => EmptyString
  | String c s' => toUpperUnit c ++ toUpperCase s'
  end.

(** The canonical form of a text under the [i] flag of a pattern without
    the [u] flag: code unit by code unit, the capital where it is one code
    unit (the sharp s stays). *)
Fixpoint canonicalize (s : string) : string :=
  match s with
  | EmptyString => EmptyString
  | String c s' => String (toUpperChar c) (canonicalize s')
  end.

Fixpoint trimStart (s : string) : string :=
  match s with
  | EmptyString => EmptyString
  | String c s' => if isSpace c then trimStart s' else s
  end.

Fixpoint trimEnd (s : string) : string :=
  match s with
  | EmptyString => EmptyString
  | String c s' =>
      match trimEnd s' with
      | EmptyString => if isSpace c then EmptyString else String c EmptyString
      | t => String c t
      end
  end.

(** [s.trim()] *)
Definition trim (s : string) : string := trimEnd (trimStart s).

(** [s.startsWith(p)] *)
Fixpoint startsWith (s p : string) {struct p} : bool :=
  match p with
  | EmptyString => true
  | String b p' =>
      match s with
      | EmptyString => false
      | String a s' => Ascii.eqb a b && startsWith s' p'
      end
  end.

(** [s.includes(k)] *)
Fixpoint includes (s k : string) : bool :=
  startsWith s k ||
  match s with
  | EmptyString => false
  | String _ s' => includes s' k
  end.

(** [(s.match(/c/g) || []).length] for a one-character pattern. *)
Fixpoint countChar (c : ascii) (s : string) : nat :=
  match s with
  | EmptyString => 0
  | String a s' => (if Ascii.eqb a c then 1 else 0) + countChar c s'
  end.

(** [xs.join(sep)] *)
Fixpoint join (sep : string) (xs : list string) : string :=
  match xs with
  | [] => ""
  | [x] => x
  | x :: rest => x ++ sep ++ join sep rest
  end.

(** [xs.includes(x)] on an array of strings. *)
Definition arrayIncludes (xs : list string) (x : string) : bool :=
  existsb (String.eqb x) xs.

(** The longest prefix of [s] whose characters satisfy [p], and the rest:
    a greedy [[class]*] that never needs to give characters back. *)
Fixpoint span (p : ascii -> bool) (s : string) : string * string :=
  match s with
  | EmptyString => (EmptyString, EmptyString)
  | String c s' =>
      if p c then let (run, rest) := span p s' in (String c run, rest)
      else (EmptyString, s)
  end.

Fixpoint drop (n : nat) (s : string) : string :=
  match n, s with
  | O, _ => s
  | S _, EmptyString => EmptyString
  | S k, String _ s' => drop k s'
  end.

(** A literal of a pattern with the [i] flag, anchored at the head of [s]. *)
Definition startsWithIgnoreCase (s literal : string) : bool :=
  startsWith (canonicalize s) (canonicalize literal).

(** [s.matchAll(re)] for a global pattern that never matches the empty
    string.  [matchAt] is the attempt anchored at the head of its
    argument; it gives the captures and the length of the match.  After a
    match the scan resumes where the match ended ([skip] counts the
    characters of the match still to pass), after a failure one character
    further. *)
Fixpoint matchAll {A} (matchAt : string -> option (A * nat))
         (s : string) (skip : nat) : list A :=
  match skip with
  | S k =>
      match s with
      | EmptyString => []
      | String _ s' => matchAll matchAt s' k
      end
  | O =>
      match matchAt s with
      | Some (captures, len) =>
          captures ::
            match s with
            | EmptyString => []
            | String _ s' => matchAll matchAt s' (Nat.pred len)
            end
      | None =>
          match s with
          | EmptyString => []
          | String _ s' => matchAll matchAt s' 0
          end
      end
  end.

(** Numbers, as far as the program meets them: the integer-valued doubles
    and the two infinities.  ([NaN] is [None] where it can occur.)  An
    integer stands for the number of that value. *)
Inductive number : Type :=
| Finite (value : Z)
| Infinity
| NegInfinity.

Bind Scope Z_scope with number.

Coercion Finite : Z >-> number.

(** The double next to a natural number: below 2^53 the number itself;
    above, the nearest multiple of the power of two that leaves 53 bits,
    the even one of two that are equally near; [None], which is Infinity,
    from 2^1024 on. *)
Definition roundToDouble (n : Z) : option Z :=
  if (n <? 2 ^ 53)%Z then Some n
  else
    let e := (Z.log2 n - 52)%Z in
    let q := (n / 2 ^ e)%Z in
    let r := (n mod 2 ^ e)%Z in
    let half := (2 ^ (e - 1))%Z in
    let q := if (half <? r)%Z || ((r =? half)%Z && Z.odd q) then (q + 1)%Z else q in
    if (2 ^ 1024 <=? q * 2 ^ e)%Z then None else Some (q * 2 ^ e)%Z.

(** The number value of an integer. *)
Definition toNumber (z : Z) : number :=
  match z with
  | Z0 => Finite 0
  | Zpos _ =>
      match roundToDouble z with
      | Some v => Finite v
      | None => Infinity
      end
  | Zneg p =>
      match roundToDouble (Zpos p) with
      | Some v => Finite (- v)
      | None => NegInfinity
      end
  end.

(** [-x] *)
Definition negate (x : number) : number :=
  match x with
  | Finite z => Finite (- z)
  | Infinity => NegInfinity
  | NegInfinity => Infinity
  end.

(** [x < y] and [x > y] *)
Definition ltNumber (x y : number) : bool :=
  match x, y with
  | _, NegInfinity => false
  | NegInfinity, _ => true
  | Infinity, _ => false
  | Finite _, Infinity => true
  | Finite a, Finite b => (a <? b)%Z
  end.

Definition gtNumber (x y : number) : bool := ltNumber y x.

(** [Math.max(x, y)] and [Math.min(x, y)] *)
Definition Math_max (x y : number) : number := if ltNumber x y then y else x.

Definition Math_min (x y : number) : number := if ltNumber y x then y else x.

(** The integer written by a run of decimal digits. *)
Fixpoint parseDigits (acc : Z) (digits : string) : Z :=
  match digits with
  | EmptyString => acc
  | String c rest => parseDigits (10 * acc + Z.of_N (code c - 48)) rest
  end.

(** [parseInt(digits, 10)] on a run of decimal digits: the number value of
    the integer they write, exactly rounded, as V8 computes it. *)
Definition parseInt (digits : string) : number :=
  toNumber (parseDigits 0 digits).

(** The decimal expansion of an integer: what [String] and template
    interpolation give for a number of that value below 10^21 in absolute
    value (from there on they use the exponent notation). *)
Definition numberToString (z : Z) : string :=
  NilZero.string_of_int (Z.to_int z).

(** Exceptions and computations that may throw. *)
Inductive exn : Type :=
| Error (message : string)
| TypeError (message : string)
| SyntaxError (message : string)
| RangeError (message : string).

Definition message (e : exn) : string :=
  match e with
  | Error m | TypeError m | SyntaxError m | RangeError m => m
  end.

Inductive result (A : Type) : Type :=
| Return (a : A)
| Throw (e : exn).
Arguments Return {A} a.
Arguments Throw {A} e.

Definition bind {A B} (m : result A) (k : A -> result B) : result B :=
  match m with
  | Return a => k a
  | Throw e => Throw e
  end.

(** [try { body } catch (error) { handler(error) }] *)
Definition tryCatch {A} (body : result A) (handler : exn -> A) : A :=
  match body with
  | Return a => a
  | Throw e => handler e
  end.

(** [xs.map(f)] with a callback that may throw: the first exception ends
    the traversal. *)
Fixpoint mapM {A B} (f : A -> result B) (xs : list A) : result (list B) :=
  match xs with
  | [] => Return []
  | x :: rest =>
      bind (f x) (fun y => bind (mapM f rest) (fun ys => Return (y :: ys)))
  end.

End Js.

Import Js.

Notation "x <- m ;; k" := (Js.bind m (fun x => k))
  (at level 61, m at next level, right associativity).

(* ================================================================= *)
(** ** validation/syntax-validator.ts *)

Record ValidationResult : Type := mkValidationResult {
  isValid : bool;
  errors : list string;
  warnings : list string
}.

(** [arr.push(x)] on the array threaded through the function. *)
Definition push (arr : list string) (x : string) : list string :=
  (arr ++ [x])%list.

Definition dangerousKeywords : list string :=
  ["DROP"; "DELETE"; "UPDATE"; "INSERT"; "TRUNCATE"; "ALTER"; "CREATE"; "EXEC"].

Definition dangerousMessage (keyword : string) : string :=
  "Dangerous keyword detected: " ++ keyword ++ ". Only SELECT queries are allowed.".

Definition validateSyntax (sql : string) : ValidationResult :=
  let errors : list string := [] in
  let warnings : list string := [] in
  if String.eqb sql "" || (String.length (trim sql) =? 0)%nat then
    mkValidationResult false (push errors "SQL query cannot be empty") warnings
  else
    let upperSQL := toUpperCase sql in
    let errors :=
      if negb (startsWith (trim upperSQL) "SELECT")
      then push errors "Query must start with SELECT" else errors in
    let errors :=
      if negb (includes upperSQL "FROM")
      then push errors "Query must include FROM clause" else errors in
    let errors :=
      fold_left
        (fun errors keyword =>
           if includes upperSQL keyword
           then push errors (dangerousMessage keyword) else errors)
        dangerousKeywords errors in
    let openParens := countChar "(" sql in
    let closeParens := countChar ")" sql in
    let errors :=
      if negb (openParens =? closeParens)%nat
      then push errors "Unbalanced parentheses in query" else errors in
    let warnings :=
      if negb (includes upperSQL "DISTINCT")
      then push warnings "Consider using DISTINCT to avoid duplicate records"
      else warnings in
    mkValidationResult (List.length errors =? 0)%nat errors warnings.

(* ================================================================= *)
(** ** validation/schema-validator.ts *)

(** The persisted schema document.  An object is the list of its own
    properties in [Object.keys] order. *)
Record FieldDefinition : Type := mkFieldDefinition {
  type : string;
  nullable : bool;
  primary_key : bool;
  valid_values : option (list string)
}.

Record TableDefinition : Type := mkTableDefinition {
  description : option string;
  fields : option (list (string * FieldDefinition))
}.

Record Schema : Type := mkSchema {
  version : string;
  tables : list (string * TableDefinition)
}.

(** [Object.keys(o)] *)
Definition objectKeys {A} (o : list (string * A)) : list string := map fst o.

(** [o[key]] for a key in upper case, which no inherited property has:
    [None] is [undefined]. *)
Fixpoint getProperty {A} (o : list (string * A)) (key : string) : option A :=
  match o with
  | [] => None
  | (k, v) :: rest => if String.eqb k key then Some v else getProperty rest key
  end.

(** The schemas directory: the parsed document of a schema id, if it has
    one that can be read. *)
Definition SchemaStore : Type := string -> option Schema.

Definition loadSchema (store : SchemaStore) (schemaId : string) : result Schema :=
  match store schemaId with
  | Some schema => Return schema
  | None => Throw (Error ("Schema not found: " ++ schemaId))
  end.

(** [[A-Z_]] under the [i] flag. *)
Definition isNameChar (c : ascii) : bool :=
  isUpperAlpha c || isLowerAlpha c || Ascii.eqb c "_".

(** [/(?:FROM|JOIN)\s+([A-Z_]+)/gi] anchored at the head of [s]. *)
Definition tablePattern (s : string) : option (string * nat) :=
  if startsWithIgnoreCase s "FROM" || startsWithIgnoreCase s "JOIN" then
    let (spaces, rest) := span isSpace (drop 4 s) in
    let (name, _) := span isNameChar rest in
    if (0 <? String.length spaces)%nat && (0 <? String.length name)%nat
    then Some (name, 4 + String.length spaces + String.length name)%nat
    else None
  else None.

(** [/([A-Z_]+)\.([A-Z_]+)/gi] anchored at the head of [s]. *)
Definition fieldPattern (s : string) : option ((string * string) * nat) :=
  let (table, rest) := span isNameChar s in
  match rest with
  | String "." rest' =>
      let (field, _) := span isNameChar rest' in
      if (0 <? String.length table)%nat && (0 <? String.length field)%nat
      then Some ((table, field),
                 String.length table + 1 + String.length field)%nat
      else None
  | _ => None
  end.

(** [set.add(x)] on a [Set] kept in insertion order. *)
Definition setAdd (set : list string) (x : string) : list string :=
  if arrayIncludes set x then set else (set ++ [x])%list.

Definition invalidTableMessage (tableName : string) (validTables : list string)
  : string :=
  "Invalid table: " ++ tableName ++ ". Valid tables: " ++ join ", " validTables.

Definition fieldWarning (fieldName tableName : string) : string :=
  "Field " ++ fieldName ++ " may not exist in table " ++ tableName.

(** The first loop of [validateAgainstSchema]: one step per match. *)
Definition checkTable (validTables : list string)
           (state : list string * list string) (match1 : string)
  : list string * list string :=
  let (usedTables, errors) := state in
  let tableName := toUpperCase match1 in
  let usedTables := setAdd usedTables tableName in
  let errors :=
    if negb (arrayIncludes (map toUpperCase validTables) tableName)
    then push errors (invalidTableMessage tableName validTables)
    else errors in
  (usedTables, errors).

(** The second loop: one step per [table.field] match. *)
Definition checkField (schema : Schema) (warnings : list string)
           (match12 : string * string) : list string :=
  let tableName := toUpperCase (fst match12) in
  let fieldName := toUpperCase (snd match12) in
  match getProperty (tables schema) tableName with
  | Some table =>
      match fields table with
      | Some tableFields =>
          let fieldExists :=
            arrayIncludes (map toUpperCase (objectKeys tableFields)) fieldName in
          if negb fieldExists
          then push warnings (fieldWarning fieldName tableName)
          else warnings
      | None => warnings
      end
  | None => warnings
  end.

Definition validateAgainstSchema (store : SchemaStore) (sql schemaId : string)
  : ValidationResult :=
  tryCatch
    (schema <- loadSchema store schemaId ;;
     let validTables := objectKeys (tables schema) in
     let matches := matchAll tablePattern sql 0 in
     let (usedTables, errors) :=
       fold_left (checkTable validTables) matches ([], []) in
     let errors :=
       if (List.length usedTables =? 0)%nat
       then push errors "No valid tables found in query" else errors in
     let fieldMatches := matchAll fieldPattern sql 0 in
     let warnings := fold_left (checkField schema) fieldMatches [] in
     Return (mkValidationResult (List.length errors =? 0)%nat errors warnings))
    (fun error => mkValidationResult false [message error] []).

(* ================================================================= *)
(** ** integrations/snowflake/explain-analyzer.ts *)

Inductive Complexity : Type := low | medium | high.

Record ExplainAnalysis : Type := mkExplainAnalysis {
  estimatedRows : number;
  summary : string;
  operations : list string;
  complexity : Complexity
}.

(** What [parseExplainOutput] observes of one element of [explainRows]:
    [null] and [undefined] have no properties to read; of any other value
    the properties [step], [plan] and [PLAN] ([Some] text when truthy) and
    what [JSON.stringify] does on it. *)
Inductive PlanRow : Type :=
| RowNullish
| RowValue (step plan PLAN : option string) (stringify : result string).

(** The argument of [parseExplainOutput]: typed [any[]], it is whatever the
    engine returned as [rows]. *)
Inductive ExplainRows : Type :=
| NotAnArray
| RowArray (rows : list PlanRow).

Definition newline : string := String "010"%char EmptyString.

(** [row['step'] || row['plan'] || row['PLAN'] || JSON.stringify(row)] *)
Definition rowText (row : PlanRow) : result string :=
  match row with
  | RowNullish => Throw (TypeError "Cannot read properties of undefined")
  | RowValue step plan PLAN stringify =>
      match step, plan, PLAN with
      | Some text, _, _ => Return text
      | None, Some text, _ => Return text
      | None, None, Some text => Return text
      | None, None, None => stringify
      end
  end.

(** [/literal[=:]\s*(\d+)/gi] anchored at the head of [s]. *)
Definition rowPattern (literal : string) (s : string) : option (string * nat) :=
  if startsWithIgnoreCase s literal then
    match drop (String.length literal) s with
    | String c rest =>
        if Ascii.eqb c "=" || Ascii.eqb c ":" then
          let (spaces, rest') := span isSpace rest in
          let (digits, _) := span isDigit rest' in
          if (0 <? String.length digits)%nat
          then Some (digits,
                     String.length literal + 1 + String.length spaces
                     + String.length digits)%nat
          else None
        else None
    | EmptyString => None
    end
  else None.

Definition rowPatterns : list (string -> option (string * nat)) :=
  [rowPattern "rows"; rowPattern "cardinality"; rowPattern "output"].

Definition extractRowEstimates (planText : string) : list number :=
  fold_left
    (fun estimates pattern =>
       fold_left
         (fun estimates match1 => (estimates ++ [parseInt match1])%list)
         (matchAll pattern planText 0) estimates)
    rowPatterns [].

Definition operationPatterns : list string :=
  ["TableScan"; "Filter"; "Join"; "Aggregate"; "Sort"; "Limit"; "Distinct";
   "Project"; "GroupBy"].

Definition extractOperations (planText : string) : list string :=
  fold_left
    (fun operations op =>
       if includes planText op then push operations op else operations)
    operationPatterns [].

Definition determineComplexity (operations : list string)
           (estimatedRows : number) : Complexity :=
  if gtNumber estimatedRows 1000000 then high
  else if arrayIncludes operations "Join" && arrayIncludes operations "Aggregate"
  then high
  else if gtNumber estimatedRows 100000 then medium
  else if arrayIncludes operations "Join" || arrayIncludes operations "Aggregate"
  then medium
  else low.

Section ExplainAnalyzer.

(** [Number.prototype.toLocaleString] of the host, and the number of
    arguments its stack takes in one call. *)
Variable toLocaleString : number -> string.
Variable argumentsLimit : nat.

(** [Math.max(...xs, 0)]: the elements of [xs] and 0 are the arguments of
    one call, which the engine refuses when they are too many. *)
Definition mathMax0 (xs : list number) : result number :=
  if (argumentsLimit <? S (List.length xs))%nat
  then Throw (RangeError "Maximum call stack size exceeded")
  else Return (fold_right Math_max (Finite 0) xs).

(** The body of the [try] block. *)
Definition analyzePlan (explainRows : ExplainRows) : result ExplainAnalysis :=
  match explainRows with
  | NotAnArray => Throw (TypeError "explainRows.map is not a function")
  | RowArray rows =>
      texts <- mapM rowText rows ;;
      let planText := join newline texts in
      let rowEstimates := extractRowEstimates planText in
      estimatedRows <- mathMax0 rowEstimates ;;
      let operations := extractOperations planText in
      let complexity := determineComplexity operations estimatedRows in
      Return
        (mkExplainAnalysis estimatedRows
           ("Query will process approximately "
            ++ toLocaleString estimatedRows ++ " rows using "
            ++ numberToString (Z.of_nat (List.length operations))
            ++ " operations")
           operations complexity)
  end.

Definition parseExplainOutput (explainRows : ExplainRows)
  : result ExplainAnalysis :=
  Return
    (tryCatch (analyzePlan explainRows)
       (fun error =>
          mkExplainAnalysis 0 "Unable to analyze query plan" [] medium)).

End ExplainAnalyzer.

(* ================================================================= *)
(** ** integrations/snowflake/query-executor.ts *)

Inductive ConnectionEvent : Type :=
| CreateConnection
| ExecuteQuery (sqlText : string)
| ValidateQuery (sqlText : string)
| Disconnect.

(** A computation on connections: the calls it makes, in order (the
    factory, [connection.executeQuery], [connection.validateQuery],
    [connection.disconnect]), and how it ends. *)
Definition io (A : Type) : Type := (list ConnectionEvent * result A)%type.

Definition ioReturn {A} (a : A) : io A := ([], Return a).

Definition ioThrow {A} (e : exn) : io A := ([], Throw e).

Definition ioBind {A B} (m : io A) (k : A -> io B) : io B :=
  match m with
  | (events, Return a) =>
      let (events', outcome) := k a in ((events ++ events')%list, outcome)
  | (events, Throw e) => (events, Throw e)
  end.

Notation "x <~ m ;; k" := (ioBind m (fun x => k))
  (at level 61, m at next level, right associativity).

(** [try { body } catch (error) { handler(error) }] *)
Definition ioCatch {A} (body : io A) (handler : exn -> io A) : io A :=
  match body with
  | (events, Throw e) =>
      let (events', outcome) := handler e in ((events ++ events')%list, outcome)
  | (events, Return a) => (events, Return a)
  end.

(** [try { body } finally { cleanup }] with a cleanup that does not throw. *)
Definition ioFinally {A} (body : io A) (cleanup : list ConnectionEvent) : io A :=
  ((fst body ++ cleanup)%list, snd body).

Section QueryExecutor.

(** Result rows are opaque to the executor, but for the [TOTAL_COUNT]
    column of a count row ([Some] number when it is truthy). *)
Variable Row : Type.
Variable Column : Type.
Variable TOTAL_COUNT : Row -> option Z.

Record QueryResult : Type := mkQueryResult {
  rows : list Row;
  columns : list Column;
  rowCount : Z;
  executionTime : Z;
  queryId : string
}.

Record PreviewResult : Type := mkPreviewResult {
  preview_rows : list Row;
  preview_columns : list Column;
  preview_rowCount : Z;
  totalEstimate : Z;
  preview_executionTime : Z;
  preview_queryId : string
}.

Record CountResult : Type := mkCountResult {
  count : Z;
  count_executionTime : Z;
  count_queryId : string
}.

(** The factory of the connection manager, which throws when a setting is
    missing from the environment, and the engine behind
    [connection.executeQuery]. *)
Variable createSnowflakeConnection : result unit.
Variable executeQuery : string -> result QueryResult.

Definition createConnection : io unit :=
  match createSnowflakeConnection with
  | Return _ => ([CreateConnection], Return tt)
  | Throw e => ([], Throw e)
  end.

Definition connectionExecuteQuery (sqlText : string) : io QueryResult :=
  ([ExecuteQuery sqlText], executeQuery sqlText).

Definition countSQL (sql : string) : string :=
  newline ++ "      WITH base_query AS (" ++ newline
  ++ "        " ++ sql ++ newline
  ++ "      )" ++ newline
  ++ "      SELECT COUNT(*) as total_count FROM base_query" ++ newline
  ++ "    ".

(** [result.rows[0]?.TOTAL_COUNT || 0] *)
Definition firstTotalCount (result : QueryResult) : Z :=
  match rows result with
  | [] => 0%Z
  | row :: _ => match TOTAL_COUNT row with Some n => n | None => 0%Z end
  end.

Definition getQueryCount (sql : string) : io CountResult :=
  _ <~ createConnection ;;
  ioFinally
    (ioCatch
       (let countSQL := countSQL sql in
        result <~ connectionExecuteQuery countSQL ;;
        ioReturn (mkCountResult (firstTotalCount result)
                    (executionTime result) (queryId result)))
       (fun error => ioReturn (mkCountResult 0 0 "error")))
    [Disconnect].

(** The text [previewQuery] hands to [connection.executeQuery]. *)
Definition previewSQL (sql : string) (maxRows : Z) : string :=
  let previewSQL := trim sql in
  if negb (includes (toUpperCase previewSQL) "LIMIT")
  then previewSQL ++ " LIMIT " ++ numberToString maxRows
  else previewSQL.

Definition previewQuery (sql : string) (maxRows : Z) : io PreviewResult :=
  _ <~ createConnection ;;
  ioFinally
    (ioCatch
       (let previewSQL := previewSQL sql maxRows in
        result <~ connectionExecuteQuery previewSQL ;;
        countResult <~ getQueryCount sql ;;
        ioReturn (mkPreviewResult (rows result) (columns result)
                    (rowCount result) (count countResult)
                    (executionTime result) (queryId result)))
       (fun error =>
          ioThrow (Error ("Failed to preview query: " ++ message error))))
    [Disconnect].

End QueryExecutor.

(* ================================================================= *)
(** ** routes/v1/generate.ts *)

(** The longest prefix of [s] that ends with a closing brace: [[\s\S]*\}]. *)
Fixpoint upToLastBrace (s : string) : option string :=
  match s with
  | EmptyString => None
  | String c s' =>
      match upToLastBrace s' with
      | Some rest => Some (String c rest)
      | None => if Ascii.eqb c "}" then Some (String c EmptyString) else None
      end
  end.

(** [responseText.match(/\{[\s\S]*\}/)]: the attempt at the leftmost
    position that has a match; [None] is [null]. *)
Fixpoint jsonMatch (responseText : string) : option string :=
  match responseText with
  | EmptyString => None
  | String c rest =>
      if Ascii.eqb c "{" then
        match upToLastBrace rest with
        | Some body => Some (String c body)
        | None => jsonMatch rest
        end
      else jsonMatch rest
  end.

Inductive HttpResponse (Body : Type) : Type :=
| Json200 (body : Body)
| Json400 (error message : string)
| Json500 (error message : string).
Arguments Json200 {Body} body.
Arguments Json400 {Body} error message.
Arguments Json500 {Body} error message.

(** A property of a parsed value, as far as the handler tells values
    apart: a falsy one (a missing property, [null], [false], 0, the empty
    text), a text, or any other, truthy value (a number, [true], an array,
    an object). *)
Inductive JsonProperty : Type :=
| Falsy
| Text (text : string)
| Truthy.

Section GenerateRoute.

(** [JSON.parse] and the [sqlQuery] property of the parsed value. *)
Variable JsonValue : Type.
Variable JSON_parse : string -> result JsonValue.
Variable sqlQuery : JsonValue -> JsonProperty.

Variable store : SchemaStore.

(** "Parse JSON from response": from the response text to [result]. *)
Definition parseResponse (responseText : string) : result JsonValue :=
  match jsonMatch responseText with
  | None => Throw (Error "Failed to extract JSON from Claude response")
  | Some matched => JSON_parse matched
  end.

(** [result.sqlQuery || ''], as the validators take it: they are called
    with the value as it is, and [validateSyntax], called first, throws on
    a truthy value that is no text, which has no [trim]. *)
Definition candidateSql (result : JsonValue) : Js.result string :=
  match sqlQuery result with
  | Falsy => Return ""
  | Text sql => Return sql
  | Truthy => Throw (TypeError "sql.trim is not a function")
  end.

(** "Validate the generated SQL": the merged [validation] object. *)
Definition validation (sql schema : string) : ValidationResult :=
  let syntaxValidation := validateSyntax sql in
  let schemaValidation := validateAgainstSchema store sql schema in
  mkValidationResult
    (isValid syntaxValidation && isValid schemaValidation)
    (errors syntaxValidation ++ errors schemaValidation)%list
    (warnings syntaxValidation ++ warnings schemaValidation)%list.

(** The handler from the model's response on, with its [catch]. *)
Definition generateRouter (responseText schema : string)
  : HttpResponse (JsonValue * ValidationResult) :=
  tryCatch
    (result <- parseResponse responseText ;;
     sql <- candidateSql result ;;
     Return (Json200 (result, validation sql schema)))
    (fun error =>
       if includes (message error) "Schema not found"
       then Json400 "Invalid schema" (message error)
       else Json500 "Failed to generate SQL"
              (if String.eqb (message error) "" then "Unknown error"
               else message error)).

End GenerateRoute.

(* ================================================================= *)
(** ** integrations/snowflake/connection-manager.ts *)

(** [text || fallback] *)
Definition orDefault (text fallback : string) : string :=
  if String.eqb text "" then fallback else text.

Section SnowflakeConnection.

Variable Row : Type.
Variable Column : Type.

(** What the driver hands to the [complete] callback of a statement that
    went through: the statement's columns and id, and the rows, which may
    be missing. *)
Record Statement : Type := mkStatement {
  statementRows : option (list Row);
  statementColumns : list Column;
  statementId : string
}.

(** The driver: how [this.connect()] ends, what [conn.execute] calls back
    with for a statement text (the error, or the statement), and the time
    the call took. *)
Variable connect : result unit.
Variable execute : string -> result Statement.
Variable elapsed : Z.

(** [executeQuery]: only a failure to connect is caught and wrapped by the
    [catch] block; the promise of the statement is returned as it is. *)
Definition SnowflakeConnection_executeQuery (sqlQuery : string)
  : result (QueryResult Row Column) :=
  match connect with
  | Throw error =>
      Throw (Error ("Query execution error: "
                    ++ orDefault (message error) "Unknown error"))
  | Return _ =>
      match execute sqlQuery with
      | Throw err => Throw (Error ("Query execution failed: " ++ message err))
      | Return stmt =>
          let rows :=
            match statementRows stmt with
            | Some rows => rows
            | None => []
            end in
          Return (mkQueryResult Row Column rows (statementColumns stmt)
                    (Z.of_nat (List.length rows)) elapsed (statementId stmt))
      end
  end.

(** [this.connect()] on a connection that stores what an earlier call
    made: it is handed back as it is. *)
Definition connectAgain : result unit := Return tt.

Definition SnowflakeConnection_validateQuery (sqlQuery : string)
  : ValidationResult :=
  tryCatch
    (_ <- connect ;;
     let explainQuery := "EXPLAIN " ++ sqlQuery in
     Return
       match execute explainQuery with
       | Throw err =>
           let errorMessage := orDefault (message err) "Unknown validation error" in
           mkValidationResult false [errorMessage] []
       | Return _ => mkValidationResult true [] []
       end)
    (fun error =>
       mkValidationResult false
         ["Validation failed: " ++ orDefault (message error) "Unknown error"]
         []).

End SnowflakeConnection.

(* ================================================================= *)
(** ** validateWithSnowflake and validation/snowflake-validator.ts *)

(** The verdict of the engine: a [ValidationResult] with, when the plan was
    read, the estimated row count and the plan summary. *)
Record PlanValidation : Type := mkPlanValidation {
  verdict : ValidationResult;
  estimatedRowCount : option number;
  executionPlan : option string
}.

Section PlanValidator.

Variable Row : Type.
Variable Column : Type.

(** What [parseExplainOutput] observes of a result row, and the host. *)
Variable planRow : Row -> PlanRow.
Variable toLocaleString : number -> string.
Variable argumentsLimit : nat.

(** The connection factory and the two methods of the connection used:
    how each ends at the time it is called. *)
Variable createSnowflakeConnection : result unit.
Variable validateQuery : string -> result ValidationResult.
Variable executeQuery : string -> result (QueryResult Row Column).

Definition connectionValidateQuery (sqlText : string) : io ValidationResult :=
  ([ValidateQuery sqlText], validateQuery sqlText).

Definition validateWithSnowflake (sql : string) : io PlanValidation :=
  _ <~ createConnection createSnowflakeConnection ;;
  ioFinally
    (ioCatch
       (validation <~ connectionValidateQuery sql ;;
        if isValid validation then
          let explainSQL := "EXPLAIN " ++ sql in
          explainResult <~ connectionExecuteQuery Row Column executeQuery explainSQL ;;
          planAnalysis <~
            ([], parseExplainOutput toLocaleString argumentsLimit
                   (RowArray (map planRow (rows Row Column explainResult)))) ;;
          ioReturn
            (mkPlanValidation
               (mkValidationResult true [] (warnings validation))
               (Some (estimatedRows planAnalysis))
               (Some (summary planAnalysis)))
        else ioReturn (mkPlanValidation validation None None))
       (fun error =>
          ioReturn
            (mkPlanValidation
               (mkValidationResult false
                  [orDefault (message error) "Unknown Snowflake error"] [])
               None None)))
    [Disconnect].

(** The wrapper used by the API endpoints. *)
Definition validateSQL (sql : string) : io PlanValidation :=
  ioCatch (validateWithSnowflake sql)
    (fun error =>
       ioReturn
         (mkPlanValidation
            (mkValidationResult false
               [orDefault (message error) "Unknown validation error"] [])
            None None)).

End PlanValidator.

(* ================================================================= *)
(** ** routes/auth/api-key-validator.ts *)

(** [s.split(sep)] for a one-character separator: the piece before the
    first separator and the pieces after it. *)
Fixpoint splitPieces (sep : ascii) (s : string) : string * list string :=
  match s with
  | EmptyString => (EmptyString, [])
  | String c s' =>
      let (piece, pieces) := splitPieces sep s' in
      if Ascii.eqb c sep then (EmptyString, piece :: pieces)
      else (String c piece, pieces)
  end.

Definition split (sep : ascii) (s : string) : list string :=
  let (piece, pieces) := splitPieces sep s in piece :: pieces.

(** [new Set([process.env.DEMO_API_KEY || 'sk_test_demo123456789'])] *)
Definition VALID_API_KEYS (DEMO_API_KEY : option string) : list string :=
  [match DEMO_API_KEY with
   | Some key => orDefault key "sk_test_demo123456789"
   | None => "sk_test_demo123456789"
   end].

(** What the middleware does with a request: it answers 401, or it
    attaches the key to the request and calls [next]. *)
Inductive AuthOutcome : Type :=
| Status401 (error message : string)
| Next (apiKey : string).

(** [authorization] is [req.headers.authorization]; [None] is [undefined].
    The second piece of the header is [undefined] when the header has no
    space. *)
Definition validateApiKey (DEMO_API_KEY : option string)
           (authorization : option string) : AuthOutcome :=
  match authorization with
  | None =>
      Status401 "Missing Authorization header"
        "Include header: Authorization: Bearer {your_api_key}"
  | Some authHeader =>
      if String.eqb authHeader "" then
        Status401 "Missing Authorization header"
          "Include header: Authorization: Bearer {your_api_key}"
      else
        let pieces := split " " authHeader in
        let scheme := nth 0 pieces EmptyString in
        match nth_error pieces 1 with
        | None =>
            Status401 "Invalid Authorization format"
              "Use format: Bearer {your_api_key}"
        | Some apiKey =>
            if negb (String.eqb scheme "Bearer") || String.eqb apiKey "" then
              Status401 "Invalid Authorization format"
                "Use format: Bearer {your_api_key}"
            else if negb (arrayIncludes (VALID_API_KEYS DEMO_API_KEY) apiKey)
            then
              Status401 "Invalid API key" "The provided API key is not valid"
            else Next apiKey
        end
  end.

(* ================================================================= *)
(** ** routes/v1/preview.ts *)

(** [parseInt(text, 10)] on any text: white space in front is skipped, a
    sign is read, then the longest run of digits; [None] is [NaN]. *)
Definition parseIntOfText (text : string) : option number :=
  let s := trimStart text in
  let (negative, body) :=
    match s with
    | String "-" rest => (true, rest)
    | String "+" rest => (false, rest)
    | _ => (false, s)
    end in
  let (digits, _) := span isDigit body in
  if (0 <? String.length digits)%nat
  then Some (if negative then negate (parseInt digits) else parseInt digits)
  else None.

(** [Math.min(Math.max(parseInt(String(maxRows), 10), 1), 1000)], where
    [maxRows] is the text [String] gives for the field of the request body,
    and 100 when the field is missing.  [NaN] stays [NaN]. *)
Definition previewLimit (maxRows : option string) : option number :=
  let text :=
    match maxRows with
    | Some text => text
    | None => numberToString 100
    end in
  option_map (fun parsed => Math_min (Math_max parsed 1) 1000)
    (parseIntOfText text).

(* ================================================================= *)
(** ** prompt-engineering/prompt-builder.ts *)

(** The schema document as the prompt builder reads it: the fields the
    validator reads, and the annotations. *)
Record FieldInfo : Type := mkFieldInfo {
  definition : FieldDefinition;
  marketing_meaning : option string;
  ai_instructions : option string
}.

Record TableInfo : Type := mkTableInfo {
  tableDescription : option string;
  tableFields : option (list (string * FieldInfo))
}.

Record CampaignRules : Type := mkCampaignRules {
  required_filters : list string;
  required_fields : list string
}.

Record SchemaDocument : Type := mkSchemaDocument {
  documentVersion : string;
  documentTables : list (string * TableInfo);
  email_campaign_rules : option CampaignRules;
  direct_mail_rules : option CampaignRules
}.

(** The part of a document the schema validator looks at. *)
Definition schemaOf (document : SchemaDocument) : Schema :=
  mkSchema (documentVersion document)
    (map
       (fun entry : string * TableInfo =>
          (fst entry,
           mkTableDefinition (tableDescription (snd entry))
             (option_map
                (map (fun field : string * FieldInfo =>
                        (fst field, definition (snd field))))
                (tableFields (snd entry)))))
       (documentTables document)).

(** The schemas directory, with whole documents. *)
Definition DocumentStore : Type := string -> option SchemaDocument.

Definition storeOf (documents : DocumentStore) : SchemaStore :=
  fun schemaId => option_map schemaOf (documents schemaId).

(** [loadSchema], with the whole document as its result. *)
Definition loadSchemaDocument (documents : DocumentStore) (schemaId : string)
  : result SchemaDocument :=
  match documents schemaId with
  | Some document => Return document
  | None => Throw (Error ("Schema not found: " ++ schemaId))
  end.

Definition quote : string := String "034"%char EmptyString.

(** [`"${v}"`] *)
Definition quoted (v : string) : string := quote ++ v ++ quote.

(** [s.repeat(n)] *)
Fixpoint repeatString (s : string) (n : nat) : string :=
  match n with
  | O => EmptyString
  | S k => s ++ repeatString s k
  end.

(** A property that is truthy: present and not the empty text. *)
Definition truthyText (property : option string) : option string :=
  match property with
  | Some text => if String.eqb text "" then None else Some text
  | None => None
  end.

(** The lines [buildCompactSchemaContext] writes for the permitted values
    of a field. *)
Definition validValuesText (valid_values : option (list string)) : string :=
  match valid_values with
  | Some values =>
      if (0 <? List.length values)%nat then
        if (List.length values <=? 5)%nat then
          newline ++ "    Valid values: " ++ join ", " (map quoted values)
        else
          let first3 := firstn 3 values in
          let last2 := skipn (List.length values - 2) values in
          newline ++ "    Valid values: " ++ join ", " (map quoted first3)
          ++ " ... (" ++ numberToString (Z.of_nat (List.length values))
          ++ " total) ... " ++ join ", " (map quoted last2)
      else EmptyString
  | None => EmptyString
  end.

(** One turn of the loop over the fields of a table. *)
Definition fieldContext (context : string) (field : string * FieldInfo)
  : string :=
  let fieldName := fst field in
  let fieldInfo := snd field in
  let context :=
    context ++ "  - " ++ fieldName ++ " (" ++ type (definition fieldInfo) ++ ")" in
  let context :=
    match truthyText (marketing_meaning fieldInfo) with
    | Some meaning => context ++ newline ++ "    Meaning: " ++ meaning
    | None => context
    end in
  let context :=
    match truthyText (ai_instructions fieldInfo) with
    | Some instructions =>
        context ++ newline ++ "    Instructions: " ++ instructions
    | None => context
    end in
  let context :=
    context ++ validValuesText (valid_values (definition fieldInfo)) in
  context ++ newline.

(** One turn of the loop over the tables: [Object.entries(table.fields)]
    throws on a table without fields. *)
Definition tableContext (context : string) (table : string * TableInfo)
  : result string :=
  let tableName := fst table in
  let context := context ++ "TABLE: " ++ tableName ++ newline in
  let context :=
    match truthyText (tableDescription (snd table)) with
    | Some description => context ++ "Purpose: " ++ description ++ newline
    | None => context
    end in
  let context := context ++ newline ++ "Fields:" ++ newline in
  match tableFields (snd table) with
  | None => Throw (TypeError "Cannot convert undefined or null to object")
  | Some fields => Return (fold_left fieldContext fields context ++ newline)
  end.

(** A loop whose turns may throw. *)
Fixpoint foldM {A B} (f : B -> A -> result B) (xs : list A) (acc : B)
  : result B :=
  match xs with
  | [] => Return acc
  | x :: rest => acc' <- f acc x ;; foldM f rest acc'
  end.

Definition buildCompactSchemaContext (schema : SchemaDocument) : result string :=
  let context := "DATABASE SCHEMA:" ++ newline in
  let context := context ++ repeatString "=" 50 ++ newline ++ newline in
  foldM tableContext (documentTables schema) context.

Record Constraints : Type := mkConstraints {
  minSize : option Z;
  maxSize : option Z;
  requireEmail : bool;
  requirePhone : bool
}.

Record PromptParams : Type := mkPromptParams {
  userPrompt : string;
  schemaId : string;
  useCase : option string;
  constraints : option Constraints
}.

Definition systemPromptFallback : string :=
  join newline
    ["You are a SQL expert specializing in identity graph queries.";
     "";
     "CRITICAL RULES:";
     "1. ALWAYS use DISTINCT on HOUSEHOLD_ID for deduplication";
     "2. ALWAYS join tables on HOUSEHOLD_ID or ADDRESS_ID";
     "3. For enumerated fields with valid_values, ALWAYS use IN clause with EXACT string values";
     "4. NEVER use >= or <= on TEXT fields with letter prefixes";
     "5. Target 50,000-200,000 households for optimal campaign scale";
     "";
     "Return ONLY valid JSON in this format:";
     "{";
     "  " ++ quoted "sqlQuery" ++ ": " ++ quoted "SELECT DISTINCT..." ++ ",";
     "  " ++ quoted "segmentName" ++ ": " ++ quoted "Brief descriptive name" ++ ",";
     "  " ++ quoted "description" ++ ": "
       ++ quoted "Clear description of the audience" ++ ",";
     "  " ++ quoted "reasoning" ++ ": "
       ++ quoted "Explanation of query approach" ++ ",";
     "  " ++ quoted "confidence" ++ ": 0.85,";
     "  " ++ quoted "estimatedSize" ++ ": 125000";
     "}"].

Definition emailMarketingFallback : string :=
  trim
    (newline
     ++ join newline
          ["EMAIL MARKETING REQUIREMENTS:";
           "- ALWAYS include EMAILQUALITYLEVEL >= 8 and EMAILOPTIN = 1";
           "- ALWAYS include EMAIL field in SELECT";
           "- Target 50K-200K households for optimal campaigns";
           "      "]).

Definition directMailFallback : string :=
  trim
    (newline
     ++ join newline
          ["DIRECT MAIL REQUIREMENTS:";
           "- ALWAYS include ADDRESS_ID IS NOT NULL";
           "- ALWAYS include STATE and ZIP in SELECT";
           "- Use INNER JOIN for PII table";
           "- Target 25K-100K households for optimal ROI";
           "      "]).

Section PromptBuilder.

(** The files of the [system-prompts] directory, by name: [None] when
    reading throws.  The number formatting of the host. *)
Variable readPromptFile : string -> option string.
Variable toLocaleString : Z -> string.
Variable documents : DocumentStore.

Definition loadSystemPrompt : string :=
  match readPromptFile "base.txt" with
  | Some text => text
  | None => systemPromptFallback
  end.

Definition loadUseCasePrompt (useCase : string) : string :=
  let validUseCases :=
    ["email-marketing"; "direct-mail"; "lookalike"; "suppression"] in
  if String.eqb useCase "" || negb (arrayIncludes validUseCases useCase) then ""
  else
    match readPromptFile (useCase ++ ".txt") with
    | Some text => text
    | None =>
        if String.eqb useCase "email-marketing" then emailMarketingFallback
        else if String.eqb useCase "direct-mail" then directMailFallback
        else ""
    end.

(** [x && useCase === name] for the use case of the request. *)
Definition useCaseIs (useCase : option string) (name : string) : bool :=
  match useCase with
  | Some text => String.eqb text name
  | None => false
  end.

Definition rulesText (title : string) (rules : CampaignRules) : string :=
  newline ++ newline ++ title ++ newline
  ++ "Required filters: " ++ join ", " (required_filters rules) ++ newline
  ++ "Required fields: " ++ join ", " (required_fields rules) ++ newline.

(** [if (n) ...] on a number: present and not zero. *)
Definition truthyNumber (n : option Z) : option Z :=
  match n with
  | Some z => if (z =? 0)%Z then None else Some z
  | None => None
  end.

Definition constraintsText (constraints : Constraints) : string :=
  let prompt := newline ++ newline ++ "CONSTRAINTS:" ++ newline in
  let prompt :=
    match truthyNumber (minSize constraints) with
    | Some n =>
        prompt ++ "- Minimum audience size: " ++ toLocaleString n
        ++ " households" ++ newline
    | None => prompt
    end in
  let prompt :=
    match truthyNumber (maxSize constraints) with
    | Some n =>
        prompt ++ "- Maximum audience size: " ++ toLocaleString n
        ++ " households" ++ newline
    | None => prompt
    end in
  let prompt :=
    if requireEmail constraints
    then prompt ++ "- MUST include email addresses with quality filters" ++ newline
    else prompt in
  if requirePhone constraints
  then prompt ++ "- MUST include phone numbers with quality filters" ++ newline
  else prompt.

Definition buildPrompt (params : PromptParams) : result string :=
  schema <- loadSchemaDocument documents (schemaId params) ;;
  let prompt := loadSystemPrompt in
  let prompt :=
    match email_campaign_rules schema with
    | Some rules =>
        if useCaseIs (useCase params) "email-marketing"
        then prompt ++ rulesText "SCHEMA-SPECIFIC EMAIL RULES:" rules
        else prompt
    | None => prompt
    end in
  let prompt :=
    match direct_mail_rules schema with
    | Some rules =>
        if useCaseIs (useCase params) "direct-mail"
        then prompt ++ rulesText "SCHEMA-SPECIFIC DIRECT MAIL RULES:" rules
        else prompt
    | None => prompt
    end in
  context <- buildCompactSchemaContext schema ;;
  let prompt := prompt ++ newline ++ newline ++ context in
  let prompt :=
    match useCase params with
    | Some useCase =>
        let useCaseInstructions := loadUseCasePrompt useCase in
        if String.eqb useCaseInstructions "" then prompt
        else prompt ++ newline ++ newline ++ "USE CASE INSTRUCTIONS:" ++ newline
             ++ useCaseInstructions
    | None => prompt
    end in
  let prompt :=
    match constraints params with
    | Some constraints => prompt ++ constraintsText constraints
    | None => prompt
    end in
  Return (prompt ++ newline ++ newline ++ "USER REQUEST:" ++ newline
          ++ userPrompt params).

End PromptBuilder.

(* ================================================================= *)
(** ** routes/v1/generate.ts: the whole handler *)

(** What the model answers: its content blocks and its token counts. *)
Inductive ContentBlock : Type :=
| TextBlock (text : string)
| OtherBlock.

Record ModelMessage : Type := mkModelMessage {
  content : list ContentBlock;
  input_tokens : Z;
  output_tokens : Z
}.

(** The body of the request, after destructuring: [bodyPrompt] is [None]
    when the property is missing or is not a text. *)
Record GenerateRequest : Type := mkGenerateRequest {
  bodyPrompt : option string;
  bodySchema : option string;
  bodyUseCase : option string;
  bodyConstraints : option Constraints
}.

(** The [metadata] of the answer, without its time stamp. *)
Record GenerateMetadata : Type := mkGenerateMetadata {
  metadataSchema : string;
  metadataUseCase : string;
  tokensUsed : Z;
  metadataModel : string
}.

Record GenerateBody (JsonValue : Type) : Type := mkGenerateBody {
  generated : JsonValue;
  bodyValidation : ValidationResult;
  metadata : GenerateMetadata
}.
Arguments mkGenerateBody {JsonValue} generated bodyValidation metadata.
Arguments generated {JsonValue} g.
Arguments bodyValidation {JsonValue} g.
Arguments metadata {JsonValue} g.

(** [message.content[0].type === 'text' ? message.content[0].text : ''] *)
Definition firstText (message : ModelMessage) : result string :=
  match content message with
  | [] => Throw (TypeError "Cannot read properties of undefined (reading 'type')")
  | TextBlock text :: _ => Return text
  | OtherBlock :: _ => Return ""
  end.

Section GenerateHandler.

Variable JsonValue : Type.
Variable JSON_parse : string -> result JsonValue.
Variable sqlQuery : JsonValue -> JsonProperty.

(** The schemas directory, the prompt files and the number formatting of
    the host; the environment; the model, from its name and the content of
    the one message to its answer. *)
Variable documents : DocumentStore.
Variable readPromptFile : string -> option string.
Variable toLocaleString : Z -> string.
Variable ANTHROPIC_API_KEY : option string.
Variable ANTHROPIC_MODEL : option string.
Variable create : string -> string -> result ModelMessage.

Definition getAnthropicClient : result unit :=
  match truthyText ANTHROPIC_API_KEY with
  | Some _ => Return tt
  | None => Throw (Error "Anthropic API key not configured")
  end.

(** [process.env.ANTHROPIC_MODEL || 'claude-sonnet-4-20250514'] *)
Definition modelName : string :=
  match truthyText ANTHROPIC_MODEL with
  | Some name => name
  | None => "claude-sonnet-4-20250514"
  end.

(** The [catch] block of the handler. *)
Definition generateCatch {Body} (error : exn) : HttpResponse Body :=
  if includes (message error) "Schema not found"
  then Json400 "Invalid schema" (message error)
  else Json500 "Failed to generate SQL" (orDefault (message error) "Unknown error").

Definition generateHandler (request : GenerateRequest)
  : HttpResponse (GenerateBody JsonValue) :=
  let schema :=
    match bodySchema request with
    | Some schema => schema
    | None => "demo-graph-v1"
    end in
  tryCatch
    (match truthyText (bodyPrompt request) with
     | None =>
         Return (Json400 "Invalid request"
                   ("Field " ++ quoted "prompt"
                    ++ " is required and must be a string"))
     | Some prompt =>
         systemPrompt <-
           buildPrompt readPromptFile toLocaleString documents
             (mkPromptParams prompt schema (bodyUseCase request)
                (bodyConstraints request)) ;;
         _ <- getAnthropicClient ;;
         message <- create modelName systemPrompt ;;
         responseText <- firstText message ;;
         result <- parseResponse JsonValue JSON_parse responseText ;;
         sql <- candidateSql JsonValue sqlQuery result ;;
         Return
           (Json200
              (mkGenerateBody result
                 (validation (storeOf documents) sql schema)
                 (mkGenerateMetadata schema
                    (match truthyText (bodyUseCase request) with
                     | Some useCase => useCase
                     | None => "general"
                     end)
                    (input_tokens message + output_tokens message)
                    modelName)))
     end)
    generateCatch.

End GenerateHandler.

(* ================================================================= *)
(** ** Notions of the specification *)

(** White-space-only text (the empty text included). *)
Fixpoint allSpace (s : string) : bool :=
  match s with
  | EmptyString => true
  | String c s' => isSpace c && allSpace s'
  end.

(** A text whose last character is no white space. *)
Fixpoint endsNonSpace (k : string) : bool :=
  match k with
  | EmptyString => false
  | String c EmptyString => negb (isSpace c)
  | String _ k' => endsNonSpace k'
  end.

(** The number of positions of [s] at which [k] occurs. *)
Fixpoint occurrences (s k : string) : nat :=
  (if startsWith s k then 1 else 0) +
  match s with
  | EmptyString => 0
  | String _ s' => occurrences s' k
  end.

(** Two characters that are equal, or the two cases of one ASCII letter. *)
Definition caseVariant (a b : ascii) : Prop :=
  a = b \/
  (isLowerAlpha a = true /\ b = toUpperChar a) \/
  (isLowerAlpha b = true /\ a = toUpperChar b).

(** Texts that are equal up to ASCII letter case. *)
Inductive equalUpToCase : string -> string -> Prop :=
| equalUpToCase_nil : equalUpToCase EmptyString EmptyString
| equalUpToCase_cons a b s t :
    caseVariant a b -> equalUpToCase s t ->
    equalUpToCase (String a s) (String b t).

(** The specification's "first top-level {...} object": from the first
    opening brace to the brace that closes it (braces are counted as
    characters, also inside string literals). *)
Fixpoint closeBrace (depth : nat) (s : string) : option string :=
  match s with
  | EmptyString => None
  | String c s' =>
      if Ascii.eqb c "}" then
        match depth with
        | O => Some (String c EmptyString)
        | S d => option_map (String c) (closeBrace d s')
        end
      else if Ascii.eqb c "{" then option_map (String c) (closeBrace (S depth) s')
      else option_map (String c) (closeBrace depth s')
  end.

Fixpoint firstTopLevelObject (s : string) : option string :=
  match s with
  | EmptyString => None
  | String c s' =>
      if Ascii.eqb c "{" then option_map (String c) (closeBrace 0 s')
      else firstTopLevelObject s'
  end.




(* ================================================================= *)
(** ** Sample inputs *)

Definition householdId : FieldDefinition := mkFieldDefinition "TEXT" false true None.

Definition incomeHh : FieldDefinition :=
  mkFieldDefinition "TEXT" true false
    (Some ["J. $75,000-$99,999"; "K. $100,000-$149,999"; "L. $150,000+"]).

Definition emailField : FieldDefinition := mkFieldDefinition "TEXT" true false None.

(** A schema in the shape of the shipped one: upper-case table names. *)
Definition sigV2 : Schema :=
  mkSchema "2.0"
    [("DATA",
      mkTableDefinition (Some "Household attributes")
        (Some [("HOUSEHOLD_ID", householdId); ("INCOME_HH", incomeHh)]));
     ("PII",
      mkTableDefinition (Some "Contact data")
        (Some [("HOUSEHOLD_ID", householdId); ("EMAIL", emailField)]))].

(** A schema document whose table name is written in lower case. *)
Definition crm : Schema :=
  mkSchema "1.0"
    [("customers",
      mkTableDefinition None
        (Some [("CUSTOMER_ID", householdId); ("EMAIL", emailField)]))].

Definition sampleStore : SchemaStore :=
  fun schemaId =>
    if String.eqb schemaId "sig-v2" then Some sigV2
    else if String.eqb schemaId "crm" then Some crm
    else None.

(** An engine that cannot be reached. *)
Definition offline : string -> result (QueryResult unit unit) :=
  fun _ => Throw (Error "Snowflake connection not ready").

(** A host that writes numbers in plain digits. *)
Definition plainNumber (n : number) : string :=
  match n with
  | Finite z => numberToString z
  | Infinity => "Infinity"
  | NegInfinity => "-Infinity"
  end.

(** A parser that accepts the empty object only. *)
Definition parseEmptyObject (text : string) : result (option string) :=
  if String.eqb text "{}" then Return None
  else Throw (SyntaxError "Unexpected non-whitespace character after JSON").

(* ================================================================= *)
(** ** Measures used in the statements *)

(** The classes in increasing order. *)
Definition complexityRank (c : Complexity) : nat :=
  match c with
  | low => 0
  | medium => 1
  | high => 2
  end.

(** Connections created and connections released along a run. *)
Definition connectionsCreated (events : list ConnectionEvent) : nat :=
  List.length
    (filter (fun e => match e with CreateConnection => true | _ => false end)
       events).

Definition connectionsReleased (events : list ConnectionEvent) : nat :=
  List.length
    (filter (fun e => match e with Disconnect => true | _ => false end) events).

(** The shipped schema's table names with no field lists. *)
Definition sigV2Bare : Schema :=
  mkSchema "2.0"
    [("DATA", mkTableDefinition None None); ("PII", mkTableDefinition None None)].

Definition bareStore : SchemaStore :=
  fun schemaId => if String.eqb schemaId "sig-v2" then Some sigV2Bare else None.

(** A document with annotations and campaign rules, one whose second
    table has no fields, and the directory holding them. *)
Definition sigV2Document : SchemaDocument :=
  mkSchemaDocument "2.0"
    [("DATA",
      mkTableInfo (Some "Household attributes")
        (Some [("HOUSEHOLD_ID", mkFieldInfo householdId None None);
               ("INCOME_HH",
                mkFieldInfo incomeHh (Some "Household income band")
                  (Some "Use IN with exact values"))]));
     ("PII",
      mkTableInfo (Some "Contact data")
        (Some [("HOUSEHOLD_ID", mkFieldInfo householdId None None);
               ("EMAIL", mkFieldInfo emailField None None)]))]
    (Some (mkCampaignRules ["EMAILOPTIN = 1"] ["EMAIL"]))
    None.

Definition draftDocument : SchemaDocument :=
  mkSchemaDocument "0.1"
    [("DATA",
      mkTableInfo None (Some [("HOUSEHOLD_ID", mkFieldInfo householdId None None)]));
     ("PII", mkTableInfo None None)]
    None None.

Definition sampleDocuments : DocumentStore :=
  fun schemaId =>
    if String.eqb schemaId "sig-v2" then Some sigV2Document
    else if String.eqb schemaId "draft" then Some draftDocument
    else None.

(** The [sqlQuery] of what [parseEmptyObject] gives. *)
Definition sqlQueryOf (value : option string) : JsonProperty :=
  match value with
  | Some text => Text text
  | None => Falsy
  end.

(** An answer whose [sqlQuery] is a number, and a parser that knows it and
    the empty object: it gives the [sqlQuery] of what it reads. *)
Definition numericAnswer : string := "{" ++ quoted "sqlQuery" ++ ": 5}".

Definition parseAnswer (text : string) : result JsonProperty :=
  if String.eqb text "{}" then Return Falsy
  else if String.eqb text numericAnswer then Return Truthy
  else Throw (SyntaxError "Unexpected token").

(** A prompt directory without files. *)
Definition noPromptFiles : string -> option string := fun _ => None.

(** A model that answers every message with the empty object. *)
Definition emptyObjectModel : string -> string -> result ModelMessage :=
  fun _ _ => Return (mkModelMessage [TextBlock "Here it is: {}"] 900 12).

(* ================================================================= *)
(** * Properties *)

(** ** Characters and strings *)

Ltac each_ascii c :=
  destruct c as [[] [] [] [] [] [] [] []]; try reflexivity; try discriminate.

Lemma isSpace_toUpperChar c : isSpace (toUpperChar c) = isSpace c.
Proof. each_ascii c. Qed.

Lemma toUpperChar_idem c : toUpperChar (toUpperChar c) = toUpperChar c.
Proof. each_ascii c. Qed.

Lemma eqb_paren_toUpperChar c p :
  p = "("%char \/ p = ")"%char ->
  Ascii.eqb (toUpperChar c) p = Ascii.eqb c p.
Proof. intros [-> | ->]; each_ascii c. Qed.

Lemma toUpperUnit_toUpperChar c : toUpperUnit (toUpperChar c) = toUpperUnit c.
Proof. each_ascii c. Qed.

Lemma toUpperCase_toUpperUnit c : toUpperCase (toUpperUnit c) = toUpperUnit c.
Proof. each_ascii c. Qed.

Lemma allSpace_toUpperUnit c : allSpace (toUpperUnit c) = isSpace c.
Proof. each_ascii c. Qed.

Lemma trimEnd_toUpperUnit c :
  trimEnd (toUpperUnit c) = if isSpace c then "" else toUpperUnit c.
Proof. each_ascii c. Qed.

Lemma trimStart_toUpperUnit c rest :
  trimStart (toUpperUnit c ++ rest)
  = if isSpace c then trimStart rest else toUpperUnit c ++ rest.
Proof. each_ascii c. Qed.

Lemma toUpperUnit_not_empty c : toUpperUnit c <> "".
Proof. each_ascii c. Qed.

Lemma countChar_toUpperUnit c p :
  p = "("%char \/ p = ")"%char ->
  countChar p (toUpperUnit c) = if Ascii.eqb c p then 1 else 0.
Proof. intros [-> | ->]; each_ascii c. Qed.

Lemma caseVariant_upper a b : caseVariant a b -> toUpperUnit a = toUpperUnit b.
Proof.
  intros [-> | [[_ ->] | [_ ->]]];
    [reflexivity | symmetry | idtac]; apply toUpperUnit_toUpperChar.
Qed.

Lemma caseVariant_space a b : caseVariant a b -> isSpace a = isSpace b.
Proof.
  intros [-> | [[_ ->] | [_ ->]]];
    [reflexivity | symmetry | idtac]; apply isSpace_toUpperChar.
Qed.

Lemma caseVariant_paren a b p :
  p = "("%char \/ p = ")"%char -> caseVariant a b ->
  Ascii.eqb a p = Ascii.eqb b p.
Proof.
  intros Hp [-> | [[_ ->] | [_ ->]]];
    [reflexivity | symmetry | idtac]; apply eqb_paren_toUpperChar, Hp.
Qed.

Lemma append_assoc (a b c : string) : (a ++ b) ++ c = a ++ b ++ c.
Proof. induction a as [|x a IH]; simpl; [reflexivity | now rewrite IH]. Qed.

Lemma append_nil_r (a : string) : a ++ "" = a.
Proof. induction a as [|x a IH]; simpl; [reflexivity | now rewrite IH]. Qed.

Lemma toUpperCase_app a b : toUpperCase (a ++ b) = toUpperCase a ++ toUpperCase b.
Proof.
  induction a as [|x a IH]; cbn [append toUpperCase]; [reflexivity|].
  now rewrite IH, append_assoc.
Qed.

Lemma toUpperCase_idem s : toUpperCase (toUpperCase s) = toUpperCase s.
Proof.
  induction s as [|x s IH]; cbn [toUpperCase]; [reflexivity|].
  now rewrite toUpperCase_app, toUpperCase_toUpperUnit, IH.
Qed.

Lemma startsWith_app k b : startsWith (k ++ b) k = true.
Proof.
  induction k as [|x k IH]; simpl; [reflexivity|].
  now rewrite Ascii.eqb_refl, IH.
Qed.

Lemma startsWith_split s k :
  startsWith s k = true -> exists b, s = k ++ b.
Proof.
  revert s; induction k as [|x k IH]; intros s H; simpl in *.
  - now exists s.
  - destruct s as [|a s]; [discriminate|].
    apply andb_true_iff in H as [Ha Hs].
    apply Ascii.eqb_eq in Ha as ->.
    destruct (IH _ Hs) as [b ->]. now exists b.
Qed.

Lemma includes_head s k : startsWith s k = true -> includes s k = true.
Proof. intros H; destruct s; simpl in *; rewrite H; reflexivity. Qed.

Lemma includes_app a k b : includes (a ++ k ++ b) k = true.
Proof.
  induction a as [|x a IH]; simpl.
  - apply includes_head, startsWith_app.
  - rewrite IH. apply orb_true_r.
Qed.

Lemma includes_split s k :
  includes s k = true -> exists a b, s = a ++ k ++ b.
Proof.
  induction s as [|x s IH]; simpl; intros H.
  - rewrite orb_false_r in H. destruct (startsWith_split _ _ H) as [b Hb].
    exists "", b. exact Hb.
  - apply orb_true_iff in H as [H | H].
    + destruct (startsWith_split _ _ H) as [b Hb]. exists "", b. exact Hb.
    + destruct (IH H) as (a & b & ->). now exists (String x a), b.
Qed.

Lemma includes_within a s b k :
  includes s k = true -> includes (a ++ s ++ b) k = true.
Proof.
  intros H. apply includes_split in H as (x & y & ->).
  rewrite !append_assoc, <- (append_assoc a x).
  apply includes_app.
Qed.

Lemma includes_left s b k : includes s k = true -> includes (s ++ b) k = true.
Proof. intros H. apply (includes_within "" s b k H). Qed.

Lemma includes_right a s k : includes s k = true -> includes (a ++ s) k = true.
Proof.
  intros H. rewrite <- (append_nil_r s). now apply includes_within.
Qed.

Lemma allSpace_app a b : allSpace (a ++ b) = allSpace a && allSpace b.
Proof.
  induction a as [|x a IH]; simpl; [reflexivity|].
  now rewrite IH, andb_assoc.
Qed.

Lemma allSpace_toUpperCase s : allSpace (toUpperCase s) = allSpace s.
Proof.
  induction s as [|x s IH]; cbn [toUpperCase allSpace]; [reflexivity|].
  now rewrite allSpace_app, allSpace_toUpperUnit, IH.
Qed.

Lemma trimStart_empty s : trimStart s = "" <-> allSpace s = true.
Proof.
  induction s as [|x s IH]; simpl; [tauto|].
  destruct (isSpace x); simpl; [exact IH|]. split; discriminate.
Qed.

Lemma trimEnd_empty s : trimEnd s = "" <-> allSpace s = true.
Proof.
  induction s as [|x s IH]; simpl; [tauto|].
  destruct (trimEnd s) eqn:E.
  - destruct (isSpace x); simpl.
    + split; intros _; [now apply IH | reflexivity].
    + split; discriminate.
  - split; [discriminate|]. intros H.
    apply andb_true_iff in H as [_ H]. apply IH in H. discriminate.
Qed.

Lemma allSpace_trimStart s : allSpace (trimStart s) = allSpace s.
Proof.
  induction s as [|x s IH]; simpl; [reflexivity|].
  destruct (isSpace x) eqn:E; simpl; [exact IH | now rewrite E].
Qed.

Lemma trim_empty s : trim s = "" <-> allSpace s = true.
Proof. unfold trim. rewrite trimEnd_empty, allSpace_trimStart. tauto. Qed.

(** The guard [!sql || sql.trim().length === 0]. *)
Lemma blank_guard sql :
  (String.eqb sql "" || (String.length (trim sql) =? 0)%nat) = allSpace sql.
Proof.
  destruct (allSpace sql) eqn:E.
  - apply trim_empty in E. rewrite E. apply orb_true_r.
  - apply orb_false_iff; split.
    + apply String.eqb_neq. intros ->. discriminate.
    + destruct (trim sql) eqn:T; [|reflexivity].
      apply trim_empty in T. congruence.
Qed.

Lemma countChar_allSpace c s :
  isSpace c = false -> allSpace s = true -> countChar c s = 0.
Proof.
  intros Hc; induction s as [|x s IH]; simpl; [reflexivity|].
  intros H. apply andb_true_iff in H as [Hx Hs].
  destruct (Ascii.eqb_spec x c) as [-> | _]; [congruence|].
  now rewrite IH.
Qed.

Lemma equalUpToCase_upper s t :
  equalUpToCase s t -> toUpperCase s = toUpperCase t.
Proof.
  induction 1 as [|a b s t Hab _ IH]; cbn [toUpperCase]; [reflexivity|].
  now rewrite (caseVariant_upper _ _ Hab), IH.
Qed.

Lemma equalUpToCase_allSpace s t : equalUpToCase s t -> allSpace s = allSpace t.
Proof.
  induction 1 as [|a b s t Hab _ IH]; simpl; [reflexivity|].
  now rewrite (caseVariant_space _ _ Hab), IH.
Qed.

Lemma equalUpToCase_countChar p s t :
  p = "("%char \/ p = ")"%char -> equalUpToCase s t ->
  countChar p s = countChar p t.
Proof.
  intros Hp; induction 1 as [|a b s t Hab _ IH]; simpl; [reflexivity|].
  now rewrite (caseVariant_paren _ _ _ Hp Hab), IH.
Qed.

Lemma list_ascii_app a b :
  list_ascii_of_string (a ++ b)
  = (list_ascii_of_string a ++ list_ascii_of_string b)%list.
Proof. induction a as [|x a IH]; simpl; [reflexivity | now rewrite IH]. Qed.

Lemma list_ascii_inj a b :
  list_ascii_of_string a = list_ascii_of_string b -> a = b.
Proof.
  intros H. rewrite <- (string_of_list_ascii_of_string a), H.
  apply string_of_list_ascii_of_string.
Qed.

Lemma append_inv_head (p a b : string) : p ++ a = p ++ b -> a = b.
Proof.
  intros H. apply list_ascii_inj.
  apply (f_equal list_ascii_of_string) in H.
  rewrite !list_ascii_app in H. exact (app_inv_head _ _ _ H).
Qed.

Lemma append_inv_tail (a b q : string) : a ++ q = b ++ q -> a = b.
Proof.
  intros H. apply list_ascii_inj.
  apply (f_equal list_ascii_of_string) in H.
  rewrite !list_ascii_app in H. exact (app_inv_tail _ _ _ H).
Qed.

Lemma trimStart_toUpperCase s : trimStart (toUpperCase s) = toUpperCase (trimStart s).
Proof.
  induction s as [|c s IH]; [reflexivity|].
  cbn [toUpperCase trimStart]. rewrite trimStart_toUpperUnit.
  now destruct (isSpace c).
Qed.

Lemma trimEnd_app a b :
  trimEnd (a ++ b)
  = match trimEnd b with
    | EmptyString => trimEnd a
    | String _ _ => a ++ trimEnd b
    end.
Proof.
  induction a as [|x a IH]; cbn [append trimEnd].
  - now destruct (trimEnd b).
  - rewrite IH. destruct (trimEnd b) as [|y r]; [reflexivity|].
    now destruct a.
Qed.

Lemma toUpperCase_not_empty s : s <> "" -> toUpperCase s <> "".
Proof.
  destruct s as [|c s]; [congruence|]. intros _. cbn [toUpperCase].
  pose proof (toUpperUnit_not_empty c). now destruct (toUpperUnit c).
Qed.

Lemma trimEnd_toUpperCase s : trimEnd (toUpperCase s) = toUpperCase (trimEnd s).
Proof.
  induction s as [|c s IH]; [reflexivity|].
  cbn [toUpperCase trimEnd]. rewrite trimEnd_app, IH, trimEnd_toUpperUnit.
  destruct (trimEnd s) as [|y r] eqn:E.
  - cbn [toUpperCase]. destruct (isSpace c); [reflexivity|].
    cbn [toUpperCase]. now rewrite append_nil_r.
  - assert (Hne : toUpperCase (String y r) <> "")
      by (apply toUpperCase_not_empty; discriminate).
    change (toUpperCase (String c (String y r)))
      with (toUpperUnit c ++ toUpperCase (String y r)).
    destruct (toUpperCase (String y r)); [contradiction | reflexivity].
Qed.

Lemma trim_toUpperCase s : trim (toUpperCase s) = toUpperCase (trim s).
Proof. unfold trim. now rewrite trimStart_toUpperCase, trimEnd_toUpperCase. Qed.

Lemma includes_cons c s k :
  includes (String c s) k = startsWith (String c s) k || includes s k.
Proof. reflexivity. Qed.

Lemma includes_empty b k : includes "" (String b k) = false.
Proof. reflexivity. Qed.

Lemma includes_trimStart s b k :
  isSpace b = false ->
  includes (trimStart s) (String b k) = includes s (String b k).
Proof.
  intros Hb. induction s as [|c s IH]; [reflexivity|].
  cbn [trimStart]. destruct (isSpace c) eqn:Hc; [|reflexivity].
  rewrite IH, includes_cons. cbn [startsWith].
  destruct (Ascii.eqb_spec c b) as [-> | _]; [congruence | reflexivity].
Qed.

Lemma startsWith_trimEnd t k :
  endsNonSpace k = true -> startsWith (trimEnd t) k = startsWith t k.
Proof.
  revert t; induction k as [|b k IH]; intros t H; [discriminate|].
  destruct t as [|c t]; [reflexivity|].
  destruct k as [|b' k'].
  - cbn [endsNonSpace] in H. apply negb_true_iff in H.
    cbn [trimEnd]. destruct (trimEnd t); [|reflexivity].
    destruct (isSpace c) eqn:Hc; [|reflexivity].
    cbn [startsWith].
    destruct (Ascii.eqb_spec c b) as [-> | _]; [congruence | reflexivity].
  - change (endsNonSpace (String b' k') = true) in H.
    cbn [trimEnd]. change (startsWith (String c t) (String b (String b' k')))
      with (Ascii.eqb c b && startsWith t (String b' k')).
    rewrite <- (IH t H).
    destruct (trimEnd t); [|reflexivity].
    destruct (isSpace c); cbn [startsWith]; [now rewrite andb_false_r|].
    reflexivity.
Qed.

Lemma includes_trimEnd t b k :
  endsNonSpace (String b k) = true ->
  includes (trimEnd t) (String b k) = includes t (String b k).
Proof.
  intros H. induction t as [|c t IH]; [reflexivity|].
  pose proof (startsWith_trimEnd (String c t) _ H) as SW.
  rewrite includes_cons, <- SW, <- IH.
  cbn [trimEnd]. destruct (trimEnd t) as [|x r]; [|reflexivity].
  destruct (isSpace c); reflexivity.
Qed.

Lemma includes_trim s b k :
  isSpace b = false -> endsNonSpace (String b k) = true ->
  includes (trim s) (String b k) = includes s (String b k).
Proof.
  intros Hb He. unfold trim.
  now rewrite includes_trimEnd, includes_trimStart.
Qed.



(** A text that begins with SELECT, or contains FROM, as it stands does so
    in the upper-cased text the validator looks at. *)
Lemma startsWith_trim_toUpperCase sql b k :
  isSpace b = false -> endsNonSpace (String b k) = true ->
  toUpperCase (String b k) = String b k ->
  startsWith sql (String b k) = true ->
  startsWith (trim (toUpperCase sql)) (String b k) = true.
Proof.
  intros Hb He Hk H. apply startsWith_split in H as [rest ->].
  rewrite toUpperCase_app, Hk. unfold trim.
  rewrite startsWith_trimEnd by exact He.
  cbn [append trimStart]. rewrite Hb. apply (startsWith_app (String b k)).
Qed.

Lemma includes_toUpperCase sql k :
  toUpperCase k = k -> includes sql k = true ->
  includes (toUpperCase sql) k = true.
Proof.
  intros Hk H. apply includes_split in H as (a & b & ->).
  rewrite !toUpperCase_app, Hk. apply includes_app.
Qed.

(** ** Loops that push *)

Lemma fold_left_push_if (p : string -> bool) (f : string -> string) xs acc :
  fold_left (fun errors x => if p x then push errors (f x) else errors) xs acc
  = (acc ++ map f (filter p xs))%list.
Proof.
  revert acc; induction xs as [|x xs IH]; intros acc; simpl.
  - now rewrite app_nil_r.
  - rewrite IH. destruct (p x); simpl; [|reflexivity].
    unfold push. now rewrite <- app_assoc.
Qed.

Lemma filter_none {A} (p : A -> bool) xs :
  (forall x, In x xs -> p x = false) -> filter p xs = [].
Proof.
  induction xs as [|x xs IH]; simpl; intros H; [reflexivity|].
  rewrite (H x (or_introl eq_refl)). apply IH. intros y Hy. apply H. now right.
Qed.

Lemma count_occ_map_filter (f : string -> string) (p : string -> bool) xs k :
  (forall x y, f x = f y -> x = y) -> NoDup xs -> In k xs ->
  count_occ string_dec (map f (filter p xs)) (f k) = if p k then 1 else 0.
Proof.
  intros Hf Hnd. induction Hnd as [|x xs Hx _ IH]; simpl; [tauto|].
  assert (Hout : forall y, ~ In y xs ->
            count_occ string_dec (map f (filter p xs)) (f y) = 0).
  { intros y Hy. apply count_occ_not_In. intros Hin.
    apply in_map_iff in Hin as (z & Hz & Hin).
    apply filter_In in Hin as [Hin _]. apply Hf in Hz. congruence. }
  intros [-> | Hk].
  - destruct (p k); simpl.
    + destruct (string_dec (f k) (f k)); [|congruence]. now rewrite Hout.
    + now apply Hout.
  - destruct (p x); simpl; [|now apply IH].
    destruct (string_dec (f x) (f k)) as [E|_]; [|now apply IH].
    apply Hf in E. congruence.
Qed.

(** ** The syntax validator *)

Lemma dangerousMessage_inj x y : dangerousMessage x = dangerousMessage y -> x = y.
Proof.
  unfold dangerousMessage. intros H.
  apply append_inv_head in H. now apply append_inv_tail in H.
Qed.

Lemma dangerousKeywords_NoDup : NoDup dangerousKeywords.
Proof. unfold dangerousKeywords. repeat constructor; simpl; intuition discriminate. Qed.

Lemma dangerousKeywords_not_blank k : In k dangerousKeywords -> allSpace k = false.
Proof. simpl. intuition (subst; reflexivity). Qed.

(** The errors and warnings of a text that is not blank, in the order the
    checks push them. *)
Lemma validateSyntax_not_blank sql :
  allSpace sql = false ->
  validateSyntax sql =
  let upperSQL := toUpperCase sql in
  let errors :=
    ((if startsWith (trim upperSQL) "SELECT" then []
      else ["Query must start with SELECT"])
     ++ (if includes upperSQL "FROM" then []
         else ["Query must include FROM clause"])
     ++ map dangerousMessage (filter (includes upperSQL) dangerousKeywords)
     ++ (if (countChar "(" sql =? countChar ")" sql)%nat then []
         else ["Unbalanced parentheses in query"]))%list in
  mkValidationResult (List.length errors =? 0)%nat errors
    (if includes upperSQL "DISTINCT" then []
     else ["Consider using DISTINCT to avoid duplicate records"]).
Proof.
  intros Hb. unfold validateSyntax. rewrite blank_guard, Hb.
  rewrite fold_left_push_if. cbv zeta.
  destruct (startsWith _ "SELECT"), (includes _ "FROM"),
    (countChar "(" sql =? countChar ")" sql)%nat, (includes _ "DISTINCT");
    cbn [negb push app]; rewrite ?app_nil_r, <- ?app_assoc; reflexivity.
Qed.

Lemma validateSyntax_blank sql :
  allSpace sql = true ->
  validateSyntax sql = mkValidationResult false ["SQL query cannot be empty"] [].
Proof. intros Hb. unfold validateSyntax. now rewrite blank_guard, Hb. Qed.

Lemma validateSyntax_isValid sql :
  isValid (validateSyntax sql)
  = (List.length (errors (validateSyntax sql)) =? 0)%nat.
Proof.
  destruct (allSpace sql) eqn:Hb.
  - now rewrite validateSyntax_blank.
  - now rewrite validateSyntax_not_blank.
Qed.

Lemma keyword_in_text sql pre mid post keyword :
  In keyword dangerousKeywords ->
  sql = pre ++ mid ++ post -> toUpperCase mid = keyword ->
  allSpace sql = false /\ includes (toUpperCase sql) keyword = true.
Proof.
  intros Hk -> Hmid. split.
  - rewrite !allSpace_app, <- (allSpace_toUpperCase mid), Hmid.
    rewrite (dangerousKeywords_not_blank _ Hk). now rewrite andb_false_r.
  - rewrite !toUpperCase_app, Hmid. apply includes_app.
Qed.

Lemma count_occ_single (c : bool) (x y : string) :
  x <> y -> count_occ string_dec (if c then [] else [x]) y = 0.
Proof.
  intros Hxy. destruct c; simpl; [reflexivity|].
  destruct (string_dec x y); [contradiction | reflexivity].
Qed.

(** C1, as the code has it: a text that contains a deny-listed keyword, in
    any letter case and at any position, is invalid, and the keyword is
    reported by exactly one error that names it, however often it occurs. *)
Theorem validateSyntax_dangerous_keyword sql pre mid post keyword :
  In keyword dangerousKeywords ->
  sql = pre ++ mid ++ post ->
  toUpperCase mid = keyword ->
  isValid (validateSyntax sql) = false /\
  count_occ string_dec (errors (validateSyntax sql)) (dangerousMessage keyword)
  = 1.
Proof.
  intros Hk Hsql Hmid.
  destruct (keyword_in_text _ _ _ _ _ Hk Hsql Hmid) as [Hb Hin].
  assert (Hcount :
    count_occ string_dec (errors (validateSyntax sql)) (dangerousMessage keyword)
    = 1).
  { rewrite (validateSyntax_not_blank _ Hb). cbn [errors].
    rewrite !count_occ_app.
    rewrite (count_occ_map_filter _ _ _ _ dangerousMessage_inj
               dangerousKeywords_NoDup Hk), Hin.
    rewrite !count_occ_single by (unfold dangerousMessage; discriminate).
    reflexivity. }
  split; [|exact Hcount].
  rewrite validateSyntax_isValid.
  destruct (errors (validateSyntax sql)); [discriminate Hcount | reflexivity].
Qed.

Lemma validateSyntax_dangerous_keyword_witness :
  isValid (validateSyntax "select 1; drop table t") = false /\
  count_occ string_dec (errors (validateSyntax "select 1; drop table t"))
    (dangerousMessage "DROP") = 1.
Proof.
  apply (validateSyntax_dangerous_keyword
           "select 1; drop table t" "select 1; " "drop" " table t" "DROP").
  - simpl. auto.
  - reflexivity.
  - reflexivity.
Defined.

(** C1, as the specification words it, fails: a keyword that occurs twice
    is reported once, not once per occurrence. *)
Lemma validateSyntax_repeated_keyword :
  occurrences (toUpperCase "DROP TABLE a; DROP TABLE b") "DROP" = 2 /\
  count_occ string_dec (errors (validateSyntax "DROP TABLE a; DROP TABLE b"))
    (dangerousMessage "DROP") = 1 /\
  count_occ string_dec (errors (validateSyntax "DROP TABLE a; DROP TABLE b"))
    (dangerousMessage "DROP")
  <> occurrences (toUpperCase "DROP TABLE a; DROP TABLE b") "DROP".
Proof. repeat split; vm_compute; congruence. Qed.

(** C9: unequal parenthesis counts give the "unbalanced parentheses" error
    and an invalid verdict, and equal counts never give that error; a text
    with balanced parentheses that begins with SELECT, contains FROM and
    contains no deny-listed keyword (all in any letter case) is valid for
    this validator, with no error at all. *)
Theorem validateSyntax_parentheses sql :
  (countChar "(" sql <> countChar ")" sql ->
   In "Unbalanced parentheses in query" (errors (validateSyntax sql)) /\
   isValid (validateSyntax sql) = false)
  /\
  (countChar "(" sql = countChar ")" sql ->
   ~ In "Unbalanced parentheses in query" (errors (validateSyntax sql)))
  /\
  (countChar "(" sql = countChar ")" sql ->
   startsWith (trim (toUpperCase sql)) "SELECT" = true ->
   includes (toUpperCase sql) "FROM" = true ->
   (forall keyword, In keyword dangerousKeywords ->
                    includes (toUpperCase sql) keyword = false) ->
   isValid (validateSyntax sql) = true /\ errors (validateSyntax sql) = [])
  /\
  (countChar "(" sql = countChar ")" sql ->
   startsWith sql "SELECT" = true ->
   includes sql "FROM" = true ->
   (forall keyword, In keyword dangerousKeywords ->
                    includes (toUpperCase sql) keyword = false) ->
   isValid (validateSyntax sql) = true /\ errors (validateSyntax sql) = []).
Proof.
  assert (Hvalid :
    countChar "(" sql = countChar ")" sql ->
    startsWith (trim (toUpperCase sql)) "SELECT" = true ->
    includes (toUpperCase sql) "FROM" = true ->
    (forall keyword, In keyword dangerousKeywords ->
                     includes (toUpperCase sql) keyword = false) ->
    isValid (validateSyntax sql) = true /\ errors (validateSyntax sql) = []).
  { intros Heq Hsel Hfrom Hnone.
    assert (Hb : allSpace sql = false).
    { apply includes_split in Hfrom as (a & b & Hab).
      rewrite <- allSpace_toUpperCase, Hab, !allSpace_app. simpl.
      now rewrite andb_false_r. }
    rewrite (validateSyntax_not_blank _ Hb). cbn [isValid errors].
    rewrite Hsel, Hfrom, (filter_none _ _ Hnone), Heq, Nat.eqb_refl.
    split; reflexivity. }
  split; [|split; [|split; [exact Hvalid|]]].
  3: { intros Heq Hsel Hfrom Hnone. apply Hvalid; auto.
       - now apply startsWith_trim_toUpperCase.
       - now apply includes_toUpperCase. }
  - intros Hne.
    assert (Hb : allSpace sql = false).
    { destruct (allSpace sql) eqn:Hb; [|reflexivity]. exfalso. apply Hne.
      now rewrite !countChar_allSpace. }
    assert (Hin : In "Unbalanced parentheses in query"
                     (errors (validateSyntax sql))).
    { rewrite (validateSyntax_not_blank _ Hb). cbn [errors].
      apply Nat.eqb_neq in Hne. rewrite Hne.
      rewrite !in_app_iff. right; right; right. now left. }
    split; [exact Hin|]. rewrite validateSyntax_isValid.
    destruct (errors (validateSyntax sql)); [contradiction | reflexivity].
  - intros Heq. destruct (allSpace sql) eqn:Hb.
    + rewrite (validateSyntax_blank _ Hb). cbn [errors].
      intros [H | []]. discriminate.
    + rewrite (validateSyntax_not_blank _ Hb). cbn [errors].
      rewrite Heq, Nat.eqb_refl, !in_app_iff, in_map_iff.
      intros [H | [H | [(k & H & _) | []]]].
      * destruct (startsWith _ _); [contradiction|].
        destruct H as [H | []]. discriminate.
      * destruct (includes _ _); [contradiction|].
        destruct H as [H | []]. discriminate.
      * unfold dangerousMessage in H. discriminate.
Qed.

Lemma validateSyntax_parentheses_witness :
  (In "Unbalanced parentheses in query"
      (errors (validateSyntax "select count(a from t")) /\
   isValid (validateSyntax "select count(a from t") = false)
  /\ (isValid (validateSyntax "  Select count(a) From t") = true /\
      errors (validateSyntax "  Select count(a) From t") = []).
Proof.
  split.
  - apply (proj1 (validateSyntax_parentheses "select count(a from t")).
    vm_compute. discriminate.
  - apply (proj1 (proj2 (proj2
             (validateSyntax_parentheses "  Select count(a) From t")))).
    + reflexivity.
    + reflexivity.
    + reflexivity.
    + intros keyword Hk. simpl in Hk.
      repeat (destruct Hk as [<- | Hk]; [reflexivity|]). contradiction.
Defined.

(** C10: texts that are equal up to ASCII letter case get the same verdict:
    the same [isValid], the same errors and the same warnings. *)
Theorem validateSyntax_case_invariant s t :
  equalUpToCase s t -> validateSyntax s = validateSyntax t.
Proof.
  intros H. unfold validateSyntax.
  rewrite !blank_guard.
  rewrite (equalUpToCase_allSpace _ _ H), (equalUpToCase_upper _ _ H).
  rewrite (equalUpToCase_countChar "(" _ _ (or_introl eq_refl) H).
  rewrite (equalUpToCase_countChar ")" _ _ (or_intror eq_refl) H).
  reflexivity.
Qed.

Ltac case_variant :=
  first [ left; reflexivity
        | right; left; split; reflexivity
        | right; right; split; reflexivity ].

Lemma validateSyntax_case_invariant_witness :
  validateSyntax "select a from T (x" = validateSyntax "SeLeCT A FROM t (X".
Proof.
  apply validateSyntax_case_invariant.
  repeat (first [ apply equalUpToCase_nil
                | apply equalUpToCase_cons; [case_variant|] ]).
Defined.

(** ** The schema-conformance validator *)

Lemma arrayIncludes_In xs x : arrayIncludes xs x = true <-> In x xs.
Proof.
  unfold arrayIncludes. rewrite existsb_exists. split.
  - intros (y & Hy & E). apply String.eqb_eq in E. now subst.
  - intros H. exists x. split; [exact H | apply String.eqb_refl].
Qed.

Lemma arrayIncludes_not_In xs x : arrayIncludes xs x = false <-> ~ In x xs.
Proof.
  rewrite <- arrayIncludes_In. destruct (arrayIncludes xs x); split; congruence.
Qed.

Lemma join_In sep xs x :
  In x xs -> exists a b, join sep xs = a ++ x ++ b.
Proof.
  induction xs as [|y xs IH]; [contradiction|].
  intros [-> | Hx].
  - destruct xs as [|z xs].
    + exists "", "". simpl. now rewrite append_nil_r.
    + exists "", (sep ++ join sep (z :: xs)). reflexivity.
  - destruct (IH Hx) as (a & b & E). destruct xs as [|z xs]; [contradiction|].
    exists (y ++ sep ++ a), b.
    change (join sep (y :: z :: xs)) with (y ++ sep ++ join sep (z :: xs)).
    now rewrite E, !append_assoc.
Qed.

Lemma setAdd_not_nil set x : setAdd set x <> [].
Proof.
  unfold setAdd. destruct (arrayIncludes set x) eqn:E.
  - intros ->. discriminate.
  - destruct set; discriminate.
Qed.

Lemma fold_setAdd_not_nil xs set : set <> [] -> fold_left setAdd xs set <> [].
Proof.
  revert set; induction xs as [|x xs IH]; intros set H; simpl; [exact H|].
  apply IH, setAdd_not_nil.
Qed.

Lemma fold_checkTable validTables matches usedTables errs :
  fold_left (checkTable validTables) matches (usedTables, errs)
  = (fold_left setAdd (map toUpperCase matches) usedTables,
     (errs ++ map (fun tableName => invalidTableMessage tableName validTables)
        (filter
           (fun tableName =>
              negb (arrayIncludes (map toUpperCase validTables) tableName))
           (map toUpperCase matches)))%list).
Proof.
  revert usedTables errs.
  induction matches as [|m matches IH]; intros usedTables errs; simpl.
  - now rewrite app_nil_r.
  - rewrite IH. f_equal.
    destruct (arrayIncludes (map toUpperCase validTables) (toUpperCase m));
      simpl; [reflexivity|].
    unfold push. now rewrite <- app_assoc.
Qed.

(** The verdict on a schema that loads: the table errors in match order,
    then the "no tables" error, and the warnings of the field loop. *)
Lemma validateAgainstSchema_loaded store schemaId schema sql :
  store schemaId = Some schema ->
  validateAgainstSchema store sql schemaId =
  let validTables := objectKeys (tables schema) in
  let matches := matchAll tablePattern sql 0 in
  let errors :=
    (map (fun tableName => invalidTableMessage tableName validTables)
       (filter
          (fun tableName =>
             negb (arrayIncludes (map toUpperCase validTables) tableName))
          (map toUpperCase matches))
     ++ match matches with
        | [] => ["No valid tables found in query"]
        | _ :: _ => []
        end)%list in
  mkValidationResult (List.length errors =? 0)%nat errors
    (fold_left (checkField schema) (matchAll fieldPattern sql 0) []).
Proof.
  intros Hload. unfold validateAgainstSchema, loadSchema. rewrite Hload.
  cbn [bind tryCatch]. rewrite fold_checkTable. cbv zeta. cbn [app].
  destruct (matchAll tablePattern sql 0) as [|m matches] eqn:E.
  - reflexivity.
  - assert (Hused :
      (List.length (fold_left setAdd (map toUpperCase (m :: matches)) [])
       =? 0)%nat = false).
    { apply Nat.eqb_neq. intros H. apply length_zero_iff_nil in H.
      revert H. simpl. apply fold_setAdd_not_nil, setAdd_not_nil. }
    rewrite Hused. now rewrite app_nil_r.
Qed.

Lemma validateAgainstSchema_not_loaded store schemaId sql :
  store schemaId = None ->
  validateAgainstSchema store sql schemaId
  = mkValidationResult false ["Schema not found: " ++ schemaId] [].
Proof.
  intros Hload. unfold validateAgainstSchema, loadSchema. now rewrite Hload.
Qed.

Lemma validateAgainstSchema_isValid store sql schemaId :
  isValid (validateAgainstSchema store sql schemaId)
  = (List.length (errors (validateAgainstSchema store sql schemaId)) =? 0)%nat.
Proof.
  destruct (store schemaId) as [schema|] eqn:Hload.
  - now rewrite (validateAgainstSchema_loaded _ _ _ _ Hload).
  - now rewrite validateAgainstSchema_not_loaded.
Qed.

(** C6: a table identifier extracted after FROM or JOIN that is not among
    the schema's tables, compared in upper case, makes the verdict invalid,
    with an error that names the identifier and lists every table of the
    schema. *)
Theorem validateAgainstSchema_invalid_table store schemaId schema sql name :
  store schemaId = Some schema ->
  In name (matchAll tablePattern sql 0) ->
  ~ In (toUpperCase name) (map toUpperCase (objectKeys (tables schema))) ->
  let result := validateAgainstSchema store sql schemaId in
  let validTables := objectKeys (tables schema) in
  let error := invalidTableMessage (toUpperCase name) validTables in
  isValid result = false /\
  In error (errors result) /\
  error = "Invalid table: " ++ toUpperCase name ++ ". Valid tables: "
          ++ join ", " validTables /\
  includes error (toUpperCase name) = true /\
  (forall table, In table validTables -> includes error table = true).
Proof.
  intros Hload Hin Hnot result validTables error.
  assert (Herr : In error (errors result)).
  { unfold result. rewrite (validateAgainstSchema_loaded _ _ _ _ Hload).
    cbn [errors]. apply in_app_iff. left.
    apply in_map_iff. exists (toUpperCase name). split; [reflexivity|].
    apply filter_In. split; [now apply in_map|].
    apply negb_true_iff. now apply arrayIncludes_not_In. }
  split; [|split; [exact Herr | split; [reflexivity | split]]].
  - unfold result in *. rewrite validateAgainstSchema_isValid.
    destruct (errors (validateAgainstSchema store sql schemaId));
      [contradiction | reflexivity].
  - unfold error, invalidTableMessage. apply includes_app.
  - intros table Ht. destruct (join_In ", " _ _ Ht) as (a & b & E).
    unfold error, invalidTableMessage. rewrite E.
    rewrite <- !append_assoc. rewrite append_assoc. apply includes_app.
Qed.

Lemma validateAgainstSchema_invalid_table_witness :
  isValid (validateAgainstSchema sampleStore
             "SELECT DISTINCT d.HOUSEHOLD_ID FROM DATA d JOIN orders o ON 1 = 1"
             "sig-v2") = false /\
  In "Invalid table: ORDERS. Valid tables: DATA, PII"
     (errors (validateAgainstSchema sampleStore
                "SELECT DISTINCT d.HOUSEHOLD_ID FROM DATA d JOIN orders o ON 1 = 1"
                "sig-v2")).
Proof.
  assert (Hload : sampleStore "sig-v2" = Some sigV2) by reflexivity.
  assert (Hin : In "orders"
                  (matchAll tablePattern
                     "SELECT DISTINCT d.HOUSEHOLD_ID FROM DATA d JOIN orders o ON 1 = 1"
                     0)) by (vm_compute; auto).
  assert (Hnot : ~ In (toUpperCase "orders")
                     (map toUpperCase (objectKeys (tables sigV2)))).
  { vm_compute. intuition discriminate. }
  destruct (validateAgainstSchema_invalid_table
              sampleStore "sig-v2" sigV2 _ "orders" Hload Hin Hnot)
    as (Hvalid & Herr & _).
  split; [exact Hvalid | exact Herr].
Defined.

(** The field loop only ever adds warnings. *)
Lemma fold_checkField_keeps schema fieldMatches warnings0 warning :
  In warning warnings0 ->
  In warning (fold_left (checkField schema) fieldMatches warnings0).
Proof.
  revert warnings0.
  induction fieldMatches as [|m ms IH]; intros warnings0 H; simpl; [exact H|].
  apply IH. unfold checkField.
  destruct (getProperty (tables schema) (toUpperCase (fst m))) as [table|];
    [|exact H].
  destruct (fields table) as [tableFields|]; [|exact H].
  destruct (negb _); [|exact H].
  unfold push. apply in_app_iff. now left.
Qed.

Lemma fold_checkField_warns schema fieldMatches warnings0 t f table tableFields :
  In (t, f) fieldMatches ->
  getProperty (tables schema) (toUpperCase t) = Some table ->
  fields table = Some tableFields ->
  ~ In (toUpperCase f) (map toUpperCase (objectKeys tableFields)) ->
  In (fieldWarning (toUpperCase f) (toUpperCase t))
     (fold_left (checkField schema) fieldMatches warnings0).
Proof.
  intros Hin Htable Hfields Hnot. revert warnings0.
  induction fieldMatches as [|m ms IH]; intros warnings0; [contradiction|].
  destruct Hin as [-> | Hin]; simpl; [|now apply IH].
  apply fold_checkField_keeps. unfold checkField. cbn [fst snd].
  rewrite Htable, Hfields.
  apply arrayIncludes_not_In in Hnot. rewrite Hnot. cbn [negb].
  unfold push. apply in_app_iff. right. now left.
Qed.

(** X23: where the table of a [table.field] match is a key of the schema in
    its upper-case spelling, an unknown field is reported by a warning. *)
Lemma validateAgainstSchema_unknown_field store schemaId schema sql t f
      table tableFields :
  store schemaId = Some schema ->
  In (t, f) (matchAll fieldPattern sql 0) ->
  getProperty (tables schema) (toUpperCase t) = Some table ->
  fields table = Some tableFields ->
  ~ In (toUpperCase f) (map toUpperCase (objectKeys tableFields)) ->
  In (fieldWarning (toUpperCase f) (toUpperCase t))
     (warnings (validateAgainstSchema store sql schemaId)).
Proof.
  intros Hload Hin Htable Hfields Hnot.
  rewrite (validateAgainstSchema_loaded _ _ _ _ Hload). cbn [warnings].
  eapply fold_checkField_warns; eassumption.
Qed.

(** X24: the errors, and with them [isValid], are decided by the table
    names of the schema alone: no field of any table can add an error. *)
Lemma validateAgainstSchema_errors_ignore_fields
      store1 store2 schemaId schema1 schema2 sql :
  store1 schemaId = Some schema1 ->
  store2 schemaId = Some schema2 ->
  objectKeys (tables schema1) = objectKeys (tables schema2) ->
  errors (validateAgainstSchema store1 sql schemaId)
  = errors (validateAgainstSchema store2 sql schemaId) /\
  isValid (validateAgainstSchema store1 sql schemaId)
  = isValid (validateAgainstSchema store2 sql schemaId).
Proof.
  intros H1 H2 Hkeys.
  rewrite (validateAgainstSchema_loaded _ _ _ _ H1).
  rewrite (validateAgainstSchema_loaded _ _ _ _ H2).
  cbn [errors isValid]. rewrite Hkeys. split; reflexivity.
Qed.

(** C7 at a schema whose table name is written in lower case: the table
    check accepts [customers], compared in upper case, but the field loop
    looks the upper-cased name up as it stands, finds no table and lets the
    unknown field [emial] pass without a warning. *)
Theorem validateAgainstSchema_lower_case_table :
  validateAgainstSchema sampleStore "SELECT customers.emial FROM customers" "crm"
  = mkValidationResult true [] [] /\
  matchAll fieldPattern "SELECT customers.emial FROM customers" 0
  = [("customers", "emial")] /\
  arrayIncludes (map toUpperCase (objectKeys (tables crm))) "CUSTOMERS" = true /\
  getProperty (tables crm) "CUSTOMERS" = None.
Proof. repeat split. Qed.

(** C2: the merged verdict is valid exactly when both validators say so,
    and its errors and warnings are those of the syntax validator followed
    by those of the schema validator; the route answers with that verdict
    on the candidate query of the parsed response. *)
Theorem validation_merge store sql schema :
  let syntaxValidation := validateSyntax sql in
  let schemaValidation := validateAgainstSchema store sql schema in
  let merged := validation store sql schema in
  isValid merged = isValid syntaxValidation && isValid schemaValidation /\
  errors merged = (errors syntaxValidation ++ errors schemaValidation)%list /\
  warnings merged
  = (warnings syntaxValidation ++ warnings schemaValidation)%list /\
  (isValid merged = true <-> errors merged = []) /\
  (forall (JsonValue : Type) (JSON_parse : string -> result JsonValue)
          (sqlQuery : JsonValue -> JsonProperty) responseText body,
      generateRouter JsonValue JSON_parse sqlQuery store responseText schema
      = Json200 body ->
      exists sql,
        candidateSql JsonValue sqlQuery (fst body) = Return sql /\
        snd body = validation store sql schema).
Proof.
  cbv zeta. repeat split; try reflexivity.
  - unfold validation. cbn [isValid errors].
    rewrite validateSyntax_isValid, validateAgainstSchema_isValid.
    intros H. apply andb_true_iff in H as [H1 H2].
    apply Nat.eqb_eq, length_zero_iff_nil in H1, H2. now rewrite H1, H2.
  - unfold validation. cbn [isValid errors].
    rewrite validateSyntax_isValid, validateAgainstSchema_isValid.
    intros H. apply app_eq_nil in H as [H1 H2]. now rewrite H1, H2.
  - intros JsonValue JSON_parse sqlQuery responseText body.
    unfold generateRouter.
    destruct (parseResponse JsonValue JSON_parse responseText) as [r|e];
      cbn [bind tryCatch].
    + destruct (candidateSql JsonValue sqlQuery r) as [candidate|e] eqn:E;
        cbn [bind tryCatch].
      * intros [= <-]. now exists candidate.
      * destruct (includes _ _); discriminate.
    + destruct (includes _ _); discriminate.
Qed.

(** ** The plan analyser *)

(** C4: the complexity class follows the fixed precedence: more than
    1,000,000 rows is high; otherwise a join together with an aggregate is
    high; otherwise more than 100,000 rows is medium; otherwise a join or
    an aggregate is medium; otherwise low; with the four named cases. *)
Theorem determineComplexity_precedence operations estimatedRows :
  let hasJoin := In "Join" operations in
  let hasAggregate := In "Aggregate" operations in
  ((estimatedRows > 1000000)%Z ->
   determineComplexity operations estimatedRows = high) /\
  ((estimatedRows <= 1000000)%Z -> hasJoin /\ hasAggregate ->
   determineComplexity operations estimatedRows = high) /\
  ((estimatedRows <= 1000000)%Z -> ~ (hasJoin /\ hasAggregate) ->
   (estimatedRows > 100000)%Z ->
   determineComplexity operations estimatedRows = medium) /\
  ((estimatedRows <= 100000)%Z -> ~ (hasJoin /\ hasAggregate) ->
   hasJoin \/ hasAggregate ->
   determineComplexity operations estimatedRows = medium) /\
  ((estimatedRows <= 100000)%Z -> ~ hasJoin -> ~ hasAggregate ->
   determineComplexity operations estimatedRows = low) /\
  determineComplexity [] 1500000 = high /\
  determineComplexity ["Join"; "Aggregate"] 50000 = high /\
  determineComplexity ["Filter"] 150000 = medium /\
  determineComplexity ["Filter"] 500 = low.
Proof.
  cbv zeta. unfold determineComplexity, gtNumber. cbn [ltNumber].
  rewrite <- !arrayIncludes_In.
  destruct (arrayIncludes operations "Join"),
           (arrayIncludes operations "Aggregate");
    destruct (Z.ltb_spec 1000000 estimatedRows),
             (Z.ltb_spec 100000 estimatedRows);
    cbn [andb orb];
    repeat split; intros; try reflexivity; try lia;
      try (exfalso; intuition congruence).
Qed.

Lemma determineComplexity_precedence_witness :
  determineComplexity ["TableScan"; "Join"] 2000 = medium.
Proof.
  destruct (determineComplexity_precedence ["TableScan"; "Join"] 2000)
    as (_ & _ & _ & H & _).
  apply H.
  - lia.
  - simpl. intuition discriminate.
  - left. simpl. auto.
Defined.

Lemma mapM_throws {A B} (f : A -> result B) xs :
  (exists x e, In x xs /\ f x = Throw e) -> exists e, mapM f xs = Throw e.
Proof.
  induction xs as [|y ys IH]; intros (x & e & Hin & Hx); [contradiction|].
  simpl. destruct (f y) as [b|e'] eqn:Hy; cbn [bind]; [|now exists e'].
  destruct Hin as [-> | Hin]; [congruence|].
  destruct IH as [e'' ->]; [now exists x, e|]. now exists e''.
Qed.

Lemma analyzePlan_malformed toLocaleString argumentsLimit explainRows :
  explainRows = NotAnArray \/
  (exists rows row error,
      explainRows = RowArray rows /\ In row rows /\ rowText row = Throw error) ->
  exists error,
    analyzePlan toLocaleString argumentsLimit explainRows = Throw error.
Proof.
  intros [-> | (rows & row & error & -> & Hin & Hrow)]; simpl.
  - eexists; reflexivity.
  - destruct (mapM_throws rowText rows) as [e ->]; [now exists row, error|].
    now exists e.
Qed.

(** C5: [parseExplainOutput] returns on every input; when the analysis
    inside it throws (as it does on an input that is no array, or on a row
    that is null, undefined or cannot be serialised) it returns exactly 0
    estimated rows, the summary "Unable to analyze query plan", no
    operations and complexity medium. *)
Theorem parseExplainOutput_never_raises toLocaleString argumentsLimit
        explainRows :
  let fallback :=
    mkExplainAnalysis 0 "Unable to analyze query plan" [] medium in
  (exists analysis,
      parseExplainOutput toLocaleString argumentsLimit explainRows
      = Return analysis) /\
  (forall error,
      analyzePlan toLocaleString argumentsLimit explainRows = Throw error ->
      parseExplainOutput toLocaleString argumentsLimit explainRows
      = Return fallback) /\
  (explainRows = NotAnArray \/
   (exists rows row error,
       explainRows = RowArray rows /\ In row rows /\ rowText row = Throw error) ->
   parseExplainOutput toLocaleString argumentsLimit explainRows
   = Return fallback) /\
  estimatedRows fallback = 0%Z /\ operations fallback = [] /\
  complexity fallback = medium.
Proof.
  cbv zeta.
  assert (Hthrow : forall error,
    analyzePlan toLocaleString argumentsLimit explainRows = Throw error ->
    parseExplainOutput toLocaleString argumentsLimit explainRows
    = Return (mkExplainAnalysis 0 "Unable to analyze query plan" [] medium)).
  { intros error H. unfold parseExplainOutput. now rewrite H. }
  repeat split.
  - unfold parseExplainOutput. eexists; reflexivity.
  - exact Hthrow.
  - intros H.
    destruct (analyzePlan_malformed toLocaleString argumentsLimit _ H)
      as [e He].
    exact (Hthrow e He).
Qed.

Lemma parseExplainOutput_never_raises_witness :
  parseExplainOutput plainNumber 1000
    (RowArray [RowValue (Some "Filter rows=500") None None (Return "");
               RowNullish])
  = Return (mkExplainAnalysis 0 "Unable to analyze query plan" [] medium).
Proof.
  destruct (parseExplainOutput_never_raises plainNumber 1000
              (RowArray [RowValue (Some "Filter rows=500") None None (Return "");
                         RowNullish]))
    as (_ & _ & H & _).
  apply H. right.
  exists [RowValue (Some "Filter rows=500") None None (Return ""); RowNullish],
         RowNullish, (TypeError "Cannot read properties of undefined").
  repeat split. simpl. auto.
Defined.

(** On well-formed rows the analysis goes through. *)
Example parseExplainOutput_plan :
  parseExplainOutput plainNumber 1000
    (RowArray [RowValue (Some "Aggregate rows=150000") None None (Return "");
               RowValue None (Some "InnerJoin cardinality: 70") None (Return "");
               RowValue None None None (Return "TableScan output=2000000")])
  = Return (mkExplainAnalysis 2000000
              "Query will process approximately 2000000 rows using 3 operations"
              ["TableScan"; "Join"; "Aggregate"] high).
Proof. reflexivity. Qed.

(** ** Reading the model's response *)

Lemma includes_char s x c :
  includes (String x s) (String c "")
  = Ascii.eqb x c || includes s (String c "").
Proof. simpl. now rewrite andb_true_r. Qed.

Lemma upToLastBrace_none s :
  upToLastBrace s = None <-> includes s "}" = false.
Proof.
  induction s as [|x s IH]; [simpl; tauto|].
  rewrite includes_char. simpl.
  destruct (upToLastBrace s) as [r|].
  - split; [discriminate|]. intros H.
    apply orb_false_iff in H as [_ H]. apply IH in H. discriminate.
  - destruct (Ascii.eqb x "}"); simpl; [split; discriminate|].
    split; intros _; [now apply IH | reflexivity].
Qed.

Lemma upToLastBrace_some s matched :
  upToLastBrace s = Some matched ->
  exists mid post,
    matched = mid ++ "}" /\ s = mid ++ "}" ++ post /\ includes post "}" = false.
Proof.
  revert matched; induction s as [|x s IH]; intros matched; simpl; [discriminate|].
  destruct (upToLastBrace s) as [r|] eqn:E.
  - intros [= <-]. destruct (IH r eq_refl) as (mid & post & -> & Hs & Hpost).
    exists (String x mid), post. rewrite Hs at 1. repeat split. exact Hpost.
  - destruct (Ascii.eqb_spec x "}") as [-> | _]; [|discriminate].
    intros [= <-]. exists "", s. repeat split. now apply upToLastBrace_none.
Qed.

Lemma jsonMatch_no_close s : includes s "}" = false -> jsonMatch s = None.
Proof.
  induction s as [|x s IH]; [reflexivity|].
  rewrite includes_char. intros H. apply orb_false_iff in H as [_ H].
  simpl. rewrite (IH H). apply upToLastBrace_none in H. rewrite H.
  now destruct (Ascii.eqb x "{").
Qed.

Lemma jsonMatch_some text matched :
  jsonMatch text = Some matched ->
  exists pre mid post,
    text = pre ++ "{" ++ mid ++ "}" ++ post /\
    matched = "{" ++ mid ++ "}" /\
    includes pre "{" = false /\ includes post "}" = false.
Proof.
  revert matched; induction text as [|c rest IH]; intros matched; simpl;
    [discriminate|].
  destruct (Ascii.eqb_spec c "{") as [-> | Hc].
  - destruct (upToLastBrace rest) as [body|] eqn:E.
    + intros [= <-].
      destruct (upToLastBrace_some _ _ E) as (mid & post & -> & Hrest & Hpost).
      exists "", mid, post. rewrite Hrest at 1. repeat split. exact Hpost.
    + apply upToLastBrace_none, jsonMatch_no_close in E. rewrite E. discriminate.
  - intros H. destruct (IH _ H) as (pre & mid & post & -> & -> & Hpre & Hpost).
    exists (String c pre), mid, post. repeat split; [|exact Hpost].
    rewrite includes_char, Hpre.
    apply Ascii.eqb_neq in Hc. now rewrite Hc.
Qed.

Lemma jsonMatch_none text :
  jsonMatch text = None ->
  forall pre post, text = pre ++ "{" ++ post -> includes post "}" = false.
Proof.
  induction text as [|c rest IH]; intros H pre post E.
  - destruct pre; discriminate.
  - simpl in H. destruct pre as [|p pre]; simpl in E; injection E as -> ->.
    + rewrite Ascii.eqb_refl in H.
      destruct (upToLastBrace post) eqn:U; [discriminate|].
      now apply upToLastBrace_none.
    + assert (Hrest : jsonMatch (pre ++ "{" ++ post) = None).
      { destruct (Ascii.eqb p "{"); [|exact H].
        now destruct (upToLastBrace _). }
      exact (IH Hrest pre post eq_refl).
Qed.

(** C3, as the code has it: the text handed to the JSON parser runs from
    the first opening brace to the last closing brace of the response; when
    no closing brace follows an opening one, or the parser rejects that
    text, the step throws, and the route answers with an error and no
    result.  A response that is parsed is answered with the parsed value
    and the verdict on its [sqlQuery], but for an [sqlQuery] that is truthy
    and no text: the validator throws on it, and the route answers 500. *)
Theorem parseResponse_extraction
        (JsonValue : Type) (JSON_parse : string -> result JsonValue)
        (sqlQuery : JsonValue -> JsonProperty) (store : SchemaStore)
        (responseText schema : string) :
  match jsonMatch responseText with
  | Some matched =>
      (exists pre mid post,
          responseText = pre ++ "{" ++ mid ++ "}" ++ post /\
          matched = "{" ++ mid ++ "}" /\
          includes pre "{" = false /\ includes post "}" = false) /\
      parseResponse JsonValue JSON_parse responseText = JSON_parse matched
  | None =>
      (forall pre post,
          responseText = pre ++ "{" ++ post -> includes post "}" = false) /\
      parseResponse JsonValue JSON_parse responseText
      = Throw (Error "Failed to extract JSON from Claude response")
  end
  /\
  match parseResponse JsonValue JSON_parse responseText with
  | Return result =>
      match sqlQuery result with
      | Falsy =>
          generateRouter JsonValue JSON_parse sqlQuery store responseText schema
          = Json200 (result, validation store "" schema)
      | Text sql =>
          generateRouter JsonValue JSON_parse sqlQuery store responseText schema
          = Json200 (result, validation store sql schema)
      | Truthy =>
          generateRouter JsonValue JSON_parse sqlQuery store responseText schema
          = Json500 "Failed to generate SQL" "sql.trim is not a function"
      end
  | Throw error =>
      generateRouter JsonValue JSON_parse sqlQuery store responseText schema
      = Json400 "Invalid schema" (message error) \/
      generateRouter JsonValue JSON_parse sqlQuery store responseText schema
      = Json500 "Failed to generate SQL"
          (if String.eqb (message error) "" then "Unknown error"
           else message error)
  end.
Proof.
  split.
  - unfold parseResponse.
    destruct (jsonMatch responseText) as [matched|] eqn:E.
    + split; [now apply jsonMatch_some | reflexivity].
    + split; [now apply jsonMatch_none | reflexivity].
  - unfold generateRouter, candidateSql.
    destruct (parseResponse JsonValue JSON_parse responseText) as [r|e];
      cbn [bind tryCatch].
    + destruct (sqlQuery r); reflexivity.
    + destruct (includes (message e) "Schema not found"); auto.
Qed.

(** C3, as the specification words it, fails: the text handed to the
    parser is not the first top-level object of the response when a later
    closing brace follows it. *)
Lemma jsonMatch_not_first_object :
  firstTopLevelObject "Result: {} (fill the {placeholders} in)" = Some "{}" /\
  jsonMatch "Result: {} (fill the {placeholders} in)"
  = Some "{} (fill the {placeholders}" /\
  jsonMatch "Result: {} (fill the {placeholders} in)"
  <> firstTopLevelObject "Result: {} (fill the {placeholders} in)" /\
  parseResponse (option string) parseEmptyObject "Result: {}" = Return None /\
  parseResponse (option string) parseEmptyObject
    "Result: {} (fill the {placeholders} in)"
  = Throw (SyntaxError "Unexpected non-whitespace character after JSON").
Proof. repeat split. vm_compute. discriminate. Qed.

(** ** The preview executor *)

Lemma previewSQL_limit sql maxRows :
  previewSQL sql maxRows
  = if includes (toUpperCase sql) "LIMIT" then trim sql
    else trim sql ++ " LIMIT " ++ numberToString maxRows.
Proof.
  unfold previewSQL.
  rewrite <- trim_toUpperCase, includes_trim by reflexivity.
  now destruct (includes (toUpperCase sql) "LIMIT").
Qed.




(** ** Scenarios *)

Example validateSyntax_accepts :
  validateSyntax "select distinct a from t where (a > 1)"
  = mkValidationResult true [] [].
Proof. reflexivity. Qed.

Example validateSyntax_blank_text :
  validateSyntax "   " = mkValidationResult false ["SQL query cannot be empty"] [].
Proof. reflexivity. Qed.

(** A column name that contains a keyword is reported like the keyword. *)
Example validateSyntax_updated_at :
  validateSyntax "select distinct updated_at from t"
  = mkValidationResult false
      ["Dangerous keyword detected: UPDATE. Only SELECT queries are allowed."]
      [].
Proof. reflexivity. Qed.

(** The two end-to-end scenarios of the specification, from the parsed
    response on. *)
Example scenario_affluent_families :
  validation sampleStore
    "SELECT DISTINCT d.HOUSEHOLD_ID FROM DATA d WHERE d.INCOME_HH IN ('K. $100,000-$149,999')"
    "sig-v2"
  = mkValidationResult true [] [].
Proof. reflexivity. Qed.

Example scenario_drop_table :
  validation sampleStore "DROP TABLE DATA" "sig-v2"
  = mkValidationResult false
      ["Query must start with SELECT"; "Query must include FROM clause";
       "Dangerous keyword detected: DROP. Only SELECT queries are allowed.";
       "No valid tables found in query"]
      ["Consider using DISTINCT to avoid duplicate records"].
Proof. reflexivity. Qed.

(** On a table whose name the schema writes in upper case an unknown field
    is warned about, and the verdict stays valid. *)
Example unknown_field_of_upper_case_table :
  validateAgainstSchema sampleStore "SELECT DATA.AGE FROM DATA" "sig-v2"
  = mkValidationResult true [] ["Field AGE may not exist in table DATA"].
Proof. reflexivity. Qed.

Example unknown_schema :
  validateAgainstSchema sampleStore "SELECT DATA.AGE FROM DATA" "sig-v9"
  = mkValidationResult false ["Schema not found: sig-v9"] [].
Proof. reflexivity. Qed.

(** A preview that goes through: the limited query, then the count on a
    connection of its own, and both connections closed. *)
Example previewQuery_events :
  fst (previewQuery unit unit (fun _ => Some 7%Z) (Return tt)
         (fun _ => Return (mkQueryResult unit unit [tt] [] 1 5 "q1"))
         "SELECT a FROM t" 10)
  = [CreateConnection; ExecuteQuery "SELECT a FROM t LIMIT 10";
     CreateConnection; ExecuteQuery (countSQL "SELECT a FROM t");
     Disconnect; Disconnect].
Proof. reflexivity. Qed.

(* ================================================================= *)
(** * Further properties *)

(** ** More on strings *)

Lemma filter_nil_inv {A} (p : A -> bool) xs :
  filter p xs = [] -> forall x, In x xs -> p x = false.
Proof.
  induction xs as [|y ys IH]; simpl; intros H x Hx; [contradiction|].
  destruct (p y) eqn:Hy; [discriminate|].
  destruct Hx as [<- | Hx]; [exact Hy | now apply IH].
Qed.

Lemma trimStart_shape s :
  trimStart s = "" \/ exists c t, trimStart s = String c t /\ isSpace c = false.
Proof.
  induction s as [|x s IH]; simpl; [now left|].
  destruct (isSpace x) eqn:Hx; [exact IH|]. right. now exists x, s.
Qed.

Lemma trimEnd_head c t :
  isSpace c = false -> exists r, trimEnd (String c t) = String c r.
Proof.
  intros Hc. cbn [trimEnd]. destruct (trimEnd t) as [|x r].
  - rewrite Hc. now exists "".
  - now exists (String x r).
Qed.

Lemma trimEnd_idem s : trimEnd (trimEnd s) = trimEnd s.
Proof.
  induction s as [|c s IH]; [reflexivity|].
  cbn [trimEnd]. destruct (trimEnd s) as [|x r] eqn:E.
  - destruct (isSpace c) eqn:Hc; [reflexivity|]. cbn. now rewrite Hc.
  - cbn [trimEnd] in *. now rewrite IH.
Qed.

Lemma trim_idem s : trim (trim s) = trim s.
Proof.
  unfold trim. destruct (trimStart_shape s) as [-> | (c & t & -> & Hc)];
    [reflexivity|].
  destruct (trimEnd_head c t Hc) as [r Hr]. rewrite Hr.
  cbn [trimStart]. rewrite Hc, <- Hr. apply trimEnd_idem.
Qed.

Lemma allSpace_trim s : allSpace (trim s) = allSpace s.
Proof.
  destruct (allSpace s) eqn:E.
  - apply trim_empty in E. now rewrite E.
  - destruct (allSpace (trim s)) eqn:T; [|reflexivity].
    apply trim_empty in T. rewrite trim_idem in T.
    apply trim_empty in T. congruence.
Qed.

Lemma countChar_trimStart c s :
  isSpace c = false -> countChar c (trimStart s) = countChar c s.
Proof.
  intros Hc; induction s as [|x s IH]; [reflexivity|].
  cbn [trimStart]. destruct (isSpace x) eqn:Hx; [|reflexivity].
  rewrite IH. cbn [countChar].
  destruct (Ascii.eqb_spec x c) as [-> | _]; [congruence | reflexivity].
Qed.

Lemma countChar_trimEnd c s :
  isSpace c = false -> countChar c (trimEnd s) = countChar c s.
Proof.
  intros Hc; induction s as [|x s IH]; [reflexivity|].
  cbn [trimEnd countChar]. rewrite <- IH.
  destruct (trimEnd s) as [|y r]; [|reflexivity].
  destruct (isSpace x) eqn:Hx; [|reflexivity].
  cbn [countChar].
  destruct (Ascii.eqb_spec x c) as [-> | _]; [congruence | reflexivity].
Qed.

Lemma countChar_trim c s :
  isSpace c = false -> countChar c (trim s) = countChar c s.
Proof.
  intros Hc. unfold trim. now rewrite countChar_trimEnd, countChar_trimStart.
Qed.

Lemma includes_toUpperCase_trim s b k :
  isSpace b = false -> endsNonSpace (String b k) = true ->
  includes (toUpperCase (trim s)) (String b k)
  = includes (toUpperCase s) (String b k).
Proof.
  intros Hb He. now rewrite <- trim_toUpperCase, includes_trim.
Qed.

(** ** More on the syntax validator *)

(** X1: the verdict of the syntax validator is valid exactly for a text
    that is not blank, begins with SELECT once trimmed, contains FROM,
    contains no deny-listed keyword (all in any letter case) and has as
    many opening as closing parentheses. *)
Theorem validateSyntax_valid_iff sql :
  isValid (validateSyntax sql) = true <->
  allSpace sql = false /\
  startsWith (trim (toUpperCase sql)) "SELECT" = true /\
  includes (toUpperCase sql) "FROM" = true /\
  (forall keyword, In keyword dangerousKeywords ->
                   includes (toUpperCase sql) keyword = false) /\
  countChar "(" sql = countChar ")" sql.
Proof.
  destruct (allSpace sql) eqn:Hb.
  - rewrite (validateSyntax_blank _ Hb). cbn [isValid].
    split; [discriminate | intros (H & _); discriminate].
  - rewrite (validateSyntax_not_blank _ Hb). cbn [isValid].
    rewrite Nat.eqb_eq, length_zero_iff_nil. split.
    + intros H. apply app_eq_nil in H as [HA H].
      apply app_eq_nil in H as [HB H]. apply app_eq_nil in H as [HK HP].
      split; [reflexivity|]. split; [|split; [|split]].
      * destruct (startsWith _ "SELECT"); [reflexivity | discriminate].
      * destruct (includes _ "FROM"); [reflexivity | discriminate].
      * apply map_eq_nil in HK. now apply filter_nil_inv.
      * destruct (Nat.eqb_spec (countChar "(" sql) (countChar ")" sql));
          [assumption | discriminate].
    + intros (_ & H1 & H2 & H3 & H4).
      now rewrite H1, H2, (filter_none _ _ H3), H4, Nat.eqb_refl.
Qed.

Lemma in_single_if (c : bool) (x e : string) :
  In e (if c then [] else [x]) <-> c = false /\ e = x.
Proof.
  destruct c; simpl; split.
  - contradiction.
  - intros [H _]; discriminate.
  - intros [<- | []]; auto.
  - intros [_ ->]; auto.
Qed.

(** X2: every error of the syntax validator on a text that is not blank is
    justified by the text, and every failed check is reported: the SELECT
    and FROM errors appear exactly when the check fails, a dangerous-keyword
    error exactly for the deny-listed keywords the upper-cased text
    contains, the parenthesis error exactly when the counts differ. *)
Theorem validateSyntax_errors_iff sql error :
  allSpace sql = false ->
  (In error (errors (validateSyntax sql)) <->
   (startsWith (trim (toUpperCase sql)) "SELECT" = false /\
    error = "Query must start with SELECT") \/
   (includes (toUpperCase sql) "FROM" = false /\
    error = "Query must include FROM clause") \/
   (exists keyword,
       In keyword dangerousKeywords /\
       includes (toUpperCase sql) keyword = true /\
       error = dangerousMessage keyword) \/
   (countChar "(" sql <> countChar ")" sql /\
    error = "Unbalanced parentheses in query")).
Proof.
  intros Hb. rewrite (validateSyntax_not_blank _ Hb). cbn [errors].
  rewrite !in_app_iff, !in_single_if, in_map_iff.
  rewrite Nat.eqb_neq.
  split.
  - intros [H | [H | [(k & <- & Hk) | H]]]; auto.
    apply filter_In in Hk as [Hk Hin]. right; right; left. now exists k.
  - intros [H | [H | [(k & Hk & Hin & ->) | H]]]; auto.
    right; right; left. exists k. split; [reflexivity|].
    apply filter_In. now split.
Qed.

Lemma validateSyntax_errors_iff_witness :
  In "Dangerous keyword detected: ALTER. Only SELECT queries are allowed."
     (errors (validateSyntax "select a from t; alter table t")).
Proof.
  apply (validateSyntax_errors_iff "select a from t; alter table t").
  - reflexivity.
  - right; right; left. exists "ALTER". repeat split. simpl. tauto.
Defined.

(** X3: a blank text, and no other, gets the verdict that consists of the
    single error "SQL query cannot be empty": no other check runs on it, not
    even the DISTINCT advice. *)
Theorem validateSyntax_blank_iff sql :
  allSpace sql = true <->
  validateSyntax sql
  = mkValidationResult false ["SQL query cannot be empty"] [].
Proof.
  split; [apply validateSyntax_blank|].
  intros H. destruct (allSpace sql) eqn:Hb; [reflexivity|]. exfalso.
  rewrite (validateSyntax_not_blank _ Hb) in H. cbv zeta in H.
  injection H as _ He _.
  assert (Hin : In "SQL query cannot be empty" ["SQL query cannot be empty"])
    by now left.
  rewrite <- He in Hin.
  rewrite !in_app_iff, !in_single_if, in_map_iff in Hin.
  destruct Hin as [[_ H] | [[_ H] | [(k & H & _) | [_ H]]]]; discriminate.
Qed.

(** X4: white space around the text does not change the verdict of the
    syntax validator. *)
Theorem validateSyntax_trim sql : validateSyntax (trim sql) = validateSyntax sql.
Proof.
  destruct (allSpace sql) eqn:Hb.
  - rewrite !validateSyntax_blank; [reflexivity | exact Hb |].
    now rewrite allSpace_trim.
  - rewrite (validateSyntax_not_blank sql Hb).
    rewrite (validateSyntax_not_blank (trim sql))
      by now rewrite allSpace_trim.
    cbv zeta.
    rewrite !countChar_trim by reflexivity.
    rewrite !includes_toUpperCase_trim by reflexivity.
    rewrite (filter_ext_in (includes (toUpperCase (trim sql)))
               (includes (toUpperCase sql)) dangerousKeywords).
    + now rewrite (trim_toUpperCase (trim sql)), trim_idem, <- trim_toUpperCase.
    + intros keyword Hk. simpl in Hk.
      repeat (destruct Hk as [<- | Hk];
              [now apply includes_toUpperCase_trim|]).
      contradiction.
Qed.

(** ** More on the schema-conformance validator *)

(** X5: the error "No valid tables found in query" is reported exactly when
    the schema loads and no table identifier follows a FROM or JOIN in the
    text; it is then the only error. *)
Theorem validateAgainstSchema_no_tables store schemaId sql :
  (In "No valid tables found in query"
      (errors (validateAgainstSchema store sql schemaId))
   <-> (exists schema, store schemaId = Some schema) /\
       matchAll tablePattern sql 0 = [])
  /\
  ((exists schema, store schemaId = Some schema) ->
   matchAll tablePattern sql 0 = [] ->
   errors (validateAgainstSchema store sql schemaId)
   = ["No valid tables found in query"] /\
   isValid (validateAgainstSchema store sql schemaId) = false).
Proof.
  destruct (store schemaId) as [schema|] eqn:Hload.
  - rewrite (validateAgainstSchema_loaded _ _ _ _ Hload). cbn [errors isValid].
    split.
    + rewrite in_app_iff, in_map_iff. split.
      * intros [(t & Ht & _) | H].
        -- unfold invalidTableMessage in Ht. discriminate.
        -- destruct (matchAll tablePattern sql 0); [|contradiction].
           split; [now exists schema | reflexivity].
      * intros [_ ->]. right. now left.
    + intros _ ->. split; reflexivity.
  - rewrite (validateAgainstSchema_not_loaded _ _ _ Hload). cbn [errors isValid].
    split.
    + split.
      * intros [H | []]. discriminate.
      * intros [[schema H] _]. discriminate.
    + intros [schema H]. discriminate.
Qed.

(** X6: the verdict of the schema validator is valid exactly when the
    schema id resolves, at least one table identifier is extracted, and
    every extracted identifier, upper-cased, is the upper-cased name of a
    table of the schema. *)
Theorem validateAgainstSchema_valid_iff store sql schemaId :
  isValid (validateAgainstSchema store sql schemaId) = true <->
  exists schema,
    store schemaId = Some schema /\
    matchAll tablePattern sql 0 <> [] /\
    forall name,
      In name (matchAll tablePattern sql 0) ->
      In (toUpperCase name) (map toUpperCase (objectKeys (tables schema))).
Proof.
  destruct (store schemaId) as [schema|] eqn:Hload.
  - rewrite (validateAgainstSchema_loaded _ _ _ _ Hload). cbn [isValid].
    rewrite Nat.eqb_eq, length_zero_iff_nil. split.
    + intros H. apply app_eq_nil in H as [HT HN].
      exists schema. split; [reflexivity|]. split.
      * destruct (matchAll tablePattern sql 0); discriminate.
      * intros name Hin. apply map_eq_nil in HT.
        pose proof (filter_nil_inv _ _ HT (toUpperCase name) (in_map _ _ _ Hin))
          as Hf.
        apply negb_false_iff in Hf. now apply arrayIncludes_In.
    + intros (schema' & [= <-] & Hne & Hall).
      rewrite filter_none.
      * destruct (matchAll tablePattern sql 0); [contradiction | reflexivity].
      * intros t Ht. apply in_map_iff in Ht as (name & <- & Hin).
        apply negb_false_iff, arrayIncludes_In. now apply Hall.
  - rewrite (validateAgainstSchema_not_loaded _ _ _ Hload). cbn [isValid].
    split; [discriminate|]. intros (schema & H & _). discriminate.
Qed.

Lemma fold_checkField_justified schema fieldMatches warnings0 warning :
  In warning (fold_left (checkField schema) fieldMatches warnings0) ->
  In warning warnings0 \/
  exists t f table tableFields,
    In (t, f) fieldMatches /\
    getProperty (tables schema) (toUpperCase t) = Some table /\
    fields table = Some tableFields /\
    ~ In (toUpperCase f) (map toUpperCase (objectKeys tableFields)) /\
    warning = fieldWarning (toUpperCase f) (toUpperCase t).
Proof.
  revert warnings0.
  induction fieldMatches as [|[t f] ms IH]; intros warnings0 H; simpl in H;
    [now left|].
  apply IH in H as [H | (t' & f' & table & tableFields & Hin & Hrest)].
  - unfold checkField in H. cbn [fst snd] in H.
    destruct (getProperty (tables schema) (toUpperCase t)) as [table|] eqn:Ht;
      [|now left].
    destruct (fields table) as [tableFields|] eqn:Hf; [|now left].
    destruct (arrayIncludes _ (toUpperCase f)) eqn:Hex; cbn [negb] in H;
      [now left|].
    unfold push in H. apply in_app_iff in H as [H | [<- | []]]; [now left|].
    right. exists t, f, table, tableFields.
    repeat split; auto; [now left | now apply arrayIncludes_not_In].
  - right. exists t', f', table, tableFields. split; [now right | exact Hrest].
Qed.

(** X7: every warning of the schema validator is about a [table.field]
    match of the text whose table, upper-cased, is a key of the schema and
    whose field, upper-cased, is not among the upper-cased field names of
    that table: a field the schema has is never warned about. *)
Theorem validateAgainstSchema_warning_justified store sql schemaId warning :
  In warning (warnings (validateAgainstSchema store sql schemaId)) ->
  exists schema t f table tableFields,
    store schemaId = Some schema /\
    In (t, f) (matchAll fieldPattern sql 0) /\
    getProperty (tables schema) (toUpperCase t) = Some table /\
    fields table = Some tableFields /\
    ~ In (toUpperCase f) (map toUpperCase (objectKeys tableFields)) /\
    warning = fieldWarning (toUpperCase f) (toUpperCase t).
Proof.
  destruct (store schemaId) as [schema|] eqn:Hload.
  - rewrite (validateAgainstSchema_loaded _ _ _ _ Hload). cbn [warnings].
    intros H. apply fold_checkField_justified in H as [[] | H].
    destruct H as (t & f & table & tableFields & H).
    now exists schema, t, f, table, tableFields.
  - rewrite (validateAgainstSchema_not_loaded _ _ _ Hload). intros [].
Qed.

Lemma validateAgainstSchema_warning_justified_witness :
  exists schema t f table tableFields,
    sampleStore "sig-v2" = Some schema /\
    In (t, f) (matchAll fieldPattern "SELECT DATA.AGE FROM DATA" 0) /\
    getProperty (tables schema) (toUpperCase t) = Some table /\
    fields table = Some tableFields /\
    ~ In (toUpperCase f) (map toUpperCase (objectKeys tableFields)) /\
    "Field AGE may not exist in table DATA"
    = fieldWarning (toUpperCase f) (toUpperCase t).
Proof.
  apply (validateAgainstSchema_warning_justified
           sampleStore "SELECT DATA.AGE FROM DATA" "sig-v2").
  vm_compute. now left.
Defined.

Lemma validateAgainstSchema_unknown_field_witness :
  In "Field AGE may not exist in table DATA"
     (warnings (validateAgainstSchema sampleStore "SELECT DATA.AGE FROM DATA"
                  "sig-v2")).
Proof.
  apply (validateAgainstSchema_unknown_field sampleStore "sig-v2" sigV2
           "SELECT DATA.AGE FROM DATA" "DATA" "AGE"
           (mkTableDefinition (Some "Household attributes")
              (Some [("HOUSEHOLD_ID", householdId); ("INCOME_HH", incomeHh)]))
           [("HOUSEHOLD_ID", householdId); ("INCOME_HH", incomeHh)]).
  - reflexivity.
  - vm_compute. now left.
  - reflexivity.
  - reflexivity.
  - vm_compute. intuition discriminate.
Defined.

Lemma validateAgainstSchema_errors_ignore_fields_witness :
  errors (validateAgainstSchema sampleStore
            "SELECT DATA.AGE FROM DATA JOIN ORDERS" "sig-v2")
  = errors (validateAgainstSchema bareStore
              "SELECT DATA.AGE FROM DATA JOIN ORDERS" "sig-v2") /\
  isValid (validateAgainstSchema sampleStore
             "SELECT DATA.AGE FROM DATA JOIN ORDERS" "sig-v2")
  = isValid (validateAgainstSchema bareStore
               "SELECT DATA.AGE FROM DATA JOIN ORDERS" "sig-v2").
Proof.
  apply (validateAgainstSchema_errors_ignore_fields
           sampleStore bareStore "sig-v2" sigV2 sigV2Bare); reflexivity.
Defined.

(** ** More on the plan analyser *)







Ltac number_order :=
  repeat match goal with x : number |- _ => destruct x end;
  unfold Math_max, Math_min, gtNumber in *; cbn [ltNumber] in *;
  repeat match goal with
         | |- context [(?a <? ?b)%Z] => destruct (Z.ltb_spec a b)
         | H : context [(?a <? ?b)%Z] |- _ => destruct (Z.ltb_spec a b)
         end;
  cbn [ltNumber] in *;
  rewrite ?Z.ltb_lt, ?Z.ltb_ge in *;
  try discriminate; try reflexivity; try lia; auto.

Lemma Math_max_upper x y :
  ltNumber (Math_max x y) x = false /\ ltNumber (Math_max x y) y = false /\
  (Math_max x y = x \/ Math_max x y = y).
Proof. repeat split; number_order. Qed.

Lemma ltNumber_false_trans x y z :
  ltNumber y x = false -> ltNumber z y = false -> ltNumber z x = false.
Proof. intros H1 H2. number_order. Qed.

(** The largest of the elements of a list and 0. *)
Lemma fold_Math_max_bounds xs :
  let largest := fold_right Math_max (Finite 0) xs in
  ltNumber largest 0 = false /\
  (forall x, In x xs -> ltNumber largest x = false) /\
  (largest = Finite 0 \/ In largest xs).
Proof.
  cbv zeta. induction xs as [|y ys (IH0 & IHle & IHin)].
  - repeat split; [contradiction | now left].
  - cbn [fold_right].
    destruct (Math_max_upper y (fold_right Math_max (Finite 0) ys))
      as (Hy & Hys & Hcase).
    repeat split.
    + exact (ltNumber_false_trans _ _ _ IH0 Hys).
    + intros x [<- | Hx]; [exact Hy|].
      exact (ltNumber_false_trans _ _ _ (IHle x Hx) Hys).
    + destruct Hcase as [-> | ->].
      * right. now left.
      * destruct IHin as [-> | H]; [now left | right; now right].
Qed.

Lemma mathMax0_outcome argumentsLimit xs :
  mathMax0 argumentsLimit xs
  = if (List.length xs <? argumentsLimit)%nat
    then Return (fold_right Math_max (Finite 0) xs)
    else Throw (RangeError "Maximum call stack size exceeded").
Proof.
  unfold mathMax0.
  destruct (Nat.ltb_spec argumentsLimit (S (List.length xs)));
    destruct (Nat.ltb_spec (List.length xs) argumentsLimit);
    try reflexivity; lia.
Qed.


(** Digits beyond the 53 bits of a number are rounded away, and a run of
    digits that is long enough reads as Infinity. *)
Example parseInt_rounds :
  parseInt "9007199254740993" = Finite 9007199254740992 /\
  parseInt "9007199254740995" = Finite 9007199254740996 /\
  parseInt "18014398509481985" = Finite 18014398509481984 /\
  parseInt "123456789012345678901234567890"
  = Finite 123456789012345677877719597056 /\
  parseInt ("1" ++ repeatString "0" 308)
  = Finite
      100000000000000001097906362944045541740492309677311846336810682903157585404911491537163328978494688899061249669721172515611590283743140088328307009198146046031271664502933027185697489699588559043338384466165001178426897626212945177628091195786707458122783970171784415105291802893207873272974885715430223118336 /\
  parseInt ("1" ++ repeatString "0" 309) = Infinity.
Proof. repeat split; vm_compute; reflexivity. Qed.

Lemma extractOperations_filter planText :
  extractOperations planText = filter (includes planText) operationPatterns.
Proof.
  unfold extractOperations.
  rewrite (fold_left_push_if (includes planText) (fun op => op)).
  cbn [app]. apply map_id.
Qed.

Lemma operationPatterns_NoDup : NoDup operationPatterns.
Proof.
  unfold operationPatterns. repeat constructor; simpl; intuition discriminate.
Qed.

(** X9: the operations read off a plan text are exactly the names of the
    fixed vocabulary that occur in it, each once and in the order of the
    vocabulary. *)
Theorem extractOperations_vocabulary planText :
  (forall op,
      In op (extractOperations planText) <->
      In op operationPatterns /\ includes planText op = true) /\
  NoDup (extractOperations planText) /\
  extractOperations planText = filter (includes planText) operationPatterns.
Proof.
  rewrite extractOperations_filter. repeat split.
  - now apply filter_In in H.
  - now apply filter_In in H.
  - intros [H1 H2]. now apply filter_In.
  - apply NoDup_filter, operationPatterns_NoDup.
Qed.

(** X10: the complexity class never goes down when the row estimate grows
    or operations are added. *)
Theorem determineComplexity_monotone operations operations' rows rows' :
  (rows <= rows')%Z ->
  (forall op, In op operations -> In op operations') ->
  complexityRank (determineComplexity operations rows)
  <= complexityRank (determineComplexity operations' rows').
Proof.
  intros Hrows Hops. unfold determineComplexity, gtNumber. cbn [ltNumber].
  assert (HJ : arrayIncludes operations "Join" = true ->
               arrayIncludes operations' "Join" = true)
    by (rewrite !arrayIncludes_In; auto).
  assert (HA : arrayIncludes operations "Aggregate" = true ->
               arrayIncludes operations' "Aggregate" = true)
    by (rewrite !arrayIncludes_In; auto).
  destruct (arrayIncludes operations "Join");
    destruct (arrayIncludes operations "Aggregate");
    destruct (arrayIncludes operations' "Join");
    destruct (arrayIncludes operations' "Aggregate");
    try (specialize (HJ eq_refl); discriminate);
    try (specialize (HA eq_refl); discriminate);
    destruct (Z.ltb_spec 1000000 rows), (Z.ltb_spec 100000 rows),
             (Z.ltb_spec 1000000 rows'), (Z.ltb_spec 100000 rows');
    cbn; lia.
Qed.

Lemma determineComplexity_monotone_witness :
  complexityRank (determineComplexity ["Filter"] 500)
  <= complexityRank (determineComplexity ["Filter"; "Join"] 150000).
Proof.
  apply determineComplexity_monotone.
  - lia.
  - intros op [<- | []]. now left.
Defined.




(** ** More on the preview executor *)

(** X12: whatever the text and the maximum, the statement [previewQuery]
    executes contains LIMIT: either the text brought it, or it was
    appended. *)
Theorem previewSQL_has_limit sql maxRows :
  includes (toUpperCase (previewSQL sql maxRows)) "LIMIT" = true.
Proof.
  rewrite previewSQL_limit.
  destruct (includes (toUpperCase sql) "LIMIT") eqn:E.
  - now rewrite includes_toUpperCase_trim.
  - rewrite !toUpperCase_app.
    change (toUpperCase " LIMIT ") with (" " ++ "LIMIT" ++ " ").
    rewrite !append_assoc, <- (append_assoc _ " " _).
    apply includes_app.
Qed.

Section ExecutorRuns.

Variable Row : Type.
Variable Column : Type.
Variable TOTAL_COUNT : Row -> option Z.
Variable createSnowflakeConnection : result unit.
Variable executeQuery : string -> result (QueryResult Row Column).

(** X13: once its connection exists, [getQueryCount] never throws: it runs
    the count statement around the text it was given, releases the
    connection, and answers with the count of the first row, or with count
    0, time 0 and query id "error" when the statement fails. *)
Theorem getQueryCount_never_throws sql :
  createSnowflakeConnection = Return tt ->
  getQueryCount Row Column TOTAL_COUNT createSnowflakeConnection
    executeQuery sql
  = ([CreateConnection; ExecuteQuery (countSQL sql); Disconnect],
     Return
       match executeQuery (countSQL sql) with
       | Return result =>
           mkCountResult (firstTotalCount Row Column TOTAL_COUNT result)
             (executionTime Row Column result) (queryId Row Column result)
       | Throw _ => mkCountResult 0 0 "error"
       end).
Proof.
  intros Hcreate. unfold getQueryCount, createConnection, connectionExecuteQuery.
  rewrite Hcreate. cbn [ioBind].
  now destruct (executeQuery (countSQL sql)).
Qed.

(** X14: every connection [previewQuery] and [getQueryCount] create is
    released, however the run ends: the calls of a run are none at all
    (the factory threw), or start with the creation of a connection, end
    with a release, and create as many connections as they release. *)
Theorem connections_released sql maxRows :
  let released events :=
    (events = [] \/
     exists calls, events = (CreateConnection :: calls ++ [Disconnect])%list)
    /\ connectionsCreated events = connectionsReleased events in
  released (fst (previewQuery Row Column TOTAL_COUNT createSnowflakeConnection
         executeQuery sql maxRows)) /\
  released (fst (getQueryCount Row Column TOTAL_COUNT createSnowflakeConnection
    executeQuery sql)).
Proof.
  cbv zeta.
  unfold previewQuery, getQueryCount, createConnection, connectionExecuteQuery.
  destruct createSnowflakeConnection as [[]|e]; cbn [ioBind].
  - destruct (executeQuery (previewSQL sql maxRows)) as [r|e1];
      destruct (executeQuery (countSQL sql)) as [c|e2];
      cbn; repeat split; try reflexivity; right;
        match goal with
        | |- exists calls, CreateConnection :: ?l = _ =>
            let l' := eval cbv in (removelast l) in exists l'; reflexivity
        end.
  - cbn. repeat split; now left.
Qed.

(** X15: once its connection exists, [previewQuery] succeeds exactly when
    the limited statement does.  A failing count is not fatal: the rows of
    the preview are returned with a total estimate of 0.  A failing preview
    is thrown on as "Failed to preview query: " followed by the message. *)
Theorem previewQuery_outcome sql maxRows :
  createSnowflakeConnection = Return tt ->
  snd (previewQuery Row Column TOTAL_COUNT createSnowflakeConnection
         executeQuery sql maxRows)
  = match executeQuery (previewSQL sql maxRows) with
    | Return result =>
        Return
          (mkPreviewResult Row Column
             (rows Row Column result) (columns Row Column result)
             (rowCount Row Column result)
             match executeQuery (countSQL sql) with
             | Return counted => firstTotalCount Row Column TOTAL_COUNT counted
             | Throw _ => 0%Z
             end
             (executionTime Row Column result) (queryId Row Column result))
    | Throw error => Throw (Error ("Failed to preview query: " ++ message error))
    end.
Proof.
  intros Hcreate.
  unfold previewQuery, getQueryCount, createConnection, connectionExecuteQuery.
  rewrite Hcreate. cbn [ioBind].
  destruct (executeQuery (previewSQL sql maxRows)) as [r|e1];
    [|reflexivity].
  now destruct (executeQuery (countSQL sql)).
Qed.

End ExecutorRuns.

Lemma getQueryCount_never_throws_witness :
  getQueryCount unit unit (fun _ => None) (Return tt) offline "SELECT 1"
  = ([CreateConnection; ExecuteQuery (countSQL "SELECT 1"); Disconnect],
     Return (mkCountResult 0 0 "error")).
Proof.
  apply (getQueryCount_never_throws unit unit (fun _ => None) (Return tt)
           offline "SELECT 1").
  reflexivity.
Defined.

Lemma previewQuery_outcome_witness :
  snd (previewQuery unit unit (fun _ => None) (Return tt) offline
         "SELECT a FROM t" 10)
  = Throw (Error "Failed to preview query: Snowflake connection not ready").
Proof.
  apply (previewQuery_outcome unit unit (fun _ => None) (Return tt) offline
           "SELECT a FROM t" 10).
  reflexivity.
Defined.

(** ** The engine's validation *)

Lemma parseExplainOutput_returns toLocaleString argumentsLimit explainRows :
  exists analysis,
    parseExplainOutput toLocaleString argumentsLimit explainRows
    = Return analysis /\
    ltNumber (estimatedRows analysis) 0 = false.
Proof.
  unfold parseExplainOutput, analyzePlan.
  destruct explainRows as [|planRows].
  - eexists. split; reflexivity.
  - destruct (mapM rowText planRows) as [texts|e]; cbn [bind tryCatch].
    + rewrite mathMax0_outcome. destruct (_ <? _)%nat; cbn [bind tryCatch].
      * eexists. split; [reflexivity|]. cbn [estimatedRows].
        exact (proj1 (fold_Math_max_bounds _)).
      * eexists. split; reflexivity.
    + eexists. split; reflexivity.
Qed.

Section PlanValidatorRuns.

Variable Row : Type.
Variable Column : Type.
Variable planRow : Row -> PlanRow.
Variable toLocaleString : number -> string.
Variable argumentsLimit : nat.
Variable createSnowflakeConnection : result unit.
Variable validateQuery : string -> result ValidationResult.
Variable executeQuery : string -> result (QueryResult Row Column).

(** X16: [validateSQL] never throws, not even when the connection cannot
    be set up: every failure ends in a verdict. *)
Theorem validateSQL_never_throws sql :
  exists validation,
    snd (validateSQL Row Column planRow toLocaleString argumentsLimit
           createSnowflakeConnection validateQuery executeQuery sql)
    = Return validation.
Proof.
  unfold validateSQL, validateWithSnowflake, createConnection,
    connectionValidateQuery, connectionExecuteQuery. cbv zeta.
  remember ("EXPLAIN " ++ sql) as explainSQL.
  destruct createSnowflakeConnection as [[]|e0]; cbn [ioBind ioCatch ioReturn];
    [|eexists; reflexivity].
  destruct (validateQuery sql) as [v|e1]; cbn; [|eexists; reflexivity].
  destruct (isValid v); cbn; [|eexists; reflexivity].
  destruct (executeQuery explainSQL) as [r|e2]; cbn;
    eexists; reflexivity.
Qed.

(** X17: once the connection exists, [validateWithSnowflake] answers with a
    valid verdict exactly when [validateQuery] accepts the text and the
    EXPLAIN statement then executes; a valid verdict has no error and a row
    estimate that is not negative, also when the plan cannot be read; a
    verdict [validateQuery] rejects is handed back as it is. *)
Theorem validateWithSnowflake_verdict sql :
  createSnowflakeConnection = Return tt ->
  exists validation,
    snd (validateWithSnowflake Row Column planRow toLocaleString
           argumentsLimit createSnowflakeConnection validateQuery
           executeQuery sql)
    = Return validation /\
    (isValid (verdict validation) = true <->
     exists accepted explainResult,
       validateQuery sql = Return accepted /\ isValid accepted = true /\
       executeQuery ("EXPLAIN " ++ sql) = Return explainResult) /\
    (isValid (verdict validation) = true ->
     errors (verdict validation) = [] /\
     exists estimate,
       estimatedRowCount validation = Some estimate /\
       ltNumber estimate 0 = false) /\
    (forall rejected,
        validateQuery sql = Return rejected -> isValid rejected = false ->
        validation = mkPlanValidation rejected None None).
Proof.
  intros Hcreate.
  unfold validateWithSnowflake, createConnection, connectionValidateQuery,
    connectionExecuteQuery.
  cbv zeta. remember ("EXPLAIN " ++ sql) as explainSQL.
  rewrite Hcreate. cbn [ioBind].
  destruct (validateQuery sql) as [v|e1];
    cbn [ioBind ioCatch ioReturn ioFinally fst snd app].
  - destruct (isValid v) eqn:Hv.
    + destruct (executeQuery explainSQL) as [r|e2];
        cbn [ioBind ioCatch ioReturn ioFinally fst snd app].
      * destruct (parseExplainOutput_returns toLocaleString argumentsLimit
                    (RowArray (map planRow (rows Row Column r))))
          as (analysis & Ha & Hnonneg).
        rewrite Ha. cbn [ioBind ioCatch ioReturn ioFinally fst snd app].
        eexists. split; [reflexivity|]. cbn. repeat split.
        -- now exists v, r.
        -- now exists (estimatedRows analysis).
        -- intros rejected [= <-] H. congruence.
      * eexists. split; [reflexivity|]. cbn. repeat split; try discriminate.
        -- intros (a & r & _ & _ & H). discriminate.
        -- intros rejected [= <-] H. congruence.
    + cbn. eexists. split; [reflexivity|]. cbn. repeat split.
      * intros H. congruence.
      * intros (a & r & [= <-] & H & _). congruence.
      * congruence.
      * congruence.
      * intros rejected [= <-] _. reflexivity.
  - cbn. eexists. split; [reflexivity|]. cbn. repeat split; try discriminate.
    intros (a & r & H & _). discriminate.
Qed.


End PlanValidatorRuns.

Lemma validateWithSnowflake_verdict_witness :
  exists validation,
    snd (validateWithSnowflake unit unit (fun _ => RowNullish)
           plainNumber 1000 (Return tt)
           (fun _ => Return (mkValidationResult true [] [])) offline
           "SELECT 1")
    = Return validation /\
    (isValid (verdict validation) = true <->
     exists accepted explainResult,
       (fun _ : string => Return (mkValidationResult true [] [])) "SELECT 1"
       = Return accepted /\ isValid accepted = true /\
       offline ("EXPLAIN " ++ "SELECT 1") = Return explainResult) /\
    (isValid (verdict validation) = true ->
     errors (verdict validation) = [] /\
     exists estimate,
       estimatedRowCount validation = Some estimate /\
       ltNumber estimate 0 = false) /\
    (forall rejected,
        (fun _ : string => Return (mkValidationResult true [] [])) "SELECT 1"
        = Return rejected -> isValid rejected = false ->
        validation = mkPlanValidation rejected None None).
Proof.
  apply (validateWithSnowflake_verdict unit unit (fun _ => RowNullish)
           plainNumber 1000 (Return tt)
           (fun _ => Return (mkValidationResult true [] [])) offline
           "SELECT 1").
  reflexivity.
Defined.

Section ConnectionRuns.

Variable Row : Type.
Variable Column : Type.

(** The driver when [validateQuery] is called, and the engine again when
    [executeQuery] is called after it. *)
Variable connect : result unit.
Variable execute : string -> result (Statement Row Column).
Variable executeAgain : string -> result (Statement Row Column).
Variable elapsed : Z.

(** X19: [validateQuery] of the connection never throws.  Its verdict is
    valid exactly when the connection is made and the engine takes the
    EXPLAIN of the text; a rejection of the engine is the one error of the
    verdict, word for word; a failure to connect is reported as
    "Validation failed: ...". *)
Theorem validateQuery_verdict sql :
  let validation :=
    SnowflakeConnection_validateQuery Row Column connect execute sql in
  (isValid validation = true <->
   connect = Return tt /\
   exists stmt, execute ("EXPLAIN " ++ sql) = Return stmt) /\
  (isValid validation = true <-> errors validation = []) /\
  warnings validation = [] /\
  (forall err,
      connect = Return tt -> execute ("EXPLAIN " ++ sql) = Throw err ->
      message err <> "" -> errors validation = [message err]) /\
  (forall error,
      connect = Throw error -> message error <> "" ->
      errors validation = ["Validation failed: " ++ message error]).
Proof.
  cbv zeta. unfold SnowflakeConnection_validateQuery. cbv zeta.
  remember ("EXPLAIN " ++ sql) as explainSQL.
  destruct connect as [[]|e0]; cbn [bind tryCatch].
  - destruct (execute explainSQL) as [stmt|err]; cbn.
    + repeat split; try discriminate; eauto.
    + repeat split; try discriminate.
      * intros [_ [stmt H]]. discriminate.
      * intros e _ [= <-] Hne. unfold orDefault.
        apply String.eqb_neq in Hne. now rewrite Hne.
  - cbn. repeat split; try discriminate.
    + intros [H _]. discriminate.
    + intros e [= <-] Hne. unfold orDefault.
      apply String.eqb_neq in Hne. now rewrite Hne.
Qed.

(** X20: with the methods of the connection in place, and the connection
    object created, the engine is sent the EXPLAIN of the text twice, by
    [validateQuery] and then by [executeQuery], whose [connect] finds the
    connection of the first call; the verdict of [validateSQL] is valid
    exactly when the connection is made and the engine takes the statement
    both times.  When it takes it the first time only, the one error of
    the verdict is "Query execution failed: " and the engine's message. *)
Theorem validateSQL_valid_iff planRow toLocaleString argumentsLimit sql :
  exists validation,
    snd (validateSQL Row Column planRow toLocaleString argumentsLimit
           (Return tt)
           (fun text =>
              Return (SnowflakeConnection_validateQuery Row Column connect
                        execute text))
           (SnowflakeConnection_executeQuery Row Column connectAgain
              executeAgain elapsed)
           sql)
    = Return validation /\
    (isValid (verdict validation) = true <->
     connect = Return tt /\
     (exists stmt, execute ("EXPLAIN " ++ sql) = Return stmt) /\
     (exists stmt, executeAgain ("EXPLAIN " ++ sql) = Return stmt)) /\
    (forall stmt err,
        connect = Return tt ->
        execute ("EXPLAIN " ++ sql) = Return stmt ->
        executeAgain ("EXPLAIN " ++ sql) = Throw err ->
        validation
        = mkPlanValidation
            (mkValidationResult false
               ["Query execution failed: " ++ message err] [])
            None None).
Proof.
  unfold validateSQL, validateWithSnowflake, createConnection,
    connectionValidateQuery, connectionExecuteQuery,
    SnowflakeConnection_validateQuery, SnowflakeConnection_executeQuery,
    connectAgain. cbv zeta.
  remember ("EXPLAIN " ++ sql) as explainSQL.
  destruct connect as [[]|e0]; cbn.
  - destruct (execute explainSQL) as [stmt|err]; cbn.
    + destruct (executeAgain explainSQL) as [stmt2|err2]; cbn.
      * eexists. split; [reflexivity|]. cbn [verdict isValid].
        split; [|discriminate]. split; eauto.
      * eexists. split; [reflexivity|]. cbn. split.
        -- split; [discriminate|]. intros (_ & _ & [s2 H]). discriminate.
        -- intros s1 e _ _ [= <-]. reflexivity.
    + eexists. split; [reflexivity|]. cbn. split.
      * split; [discriminate|]. intros (_ & [s1 H] & _). discriminate.
      * discriminate.
  - eexists. split; [reflexivity|]. cbn. split.
    + split; [discriminate|]. intros [H _]. discriminate.
    + discriminate.
Qed.

End ConnectionRuns.

(** ** The API key check *)

Lemma splitPieces_spec sep s piece pieces :
  splitPieces sep s = (piece, pieces) ->
  includes piece (String sep "") = false /\
  ((pieces = [] /\ s = piece) \/
   exists s2, pieces = split sep s2 /\ s = piece ++ String sep s2).
Proof.
  revert piece pieces; induction s as [|c s IH]; intros piece pieces; simpl.
  - intros [= <- <-]. split; [reflexivity | left; now split].
  - destruct (splitPieces sep s) as [p ps] eqn:E.
    destruct (IH p ps eq_refl) as [Hp Hs].
    destruct (Ascii.eqb_spec c sep) as [-> | Hc]; intros [= <- <-].
    + split; [reflexivity|]. right. exists s. unfold split. now rewrite E.
    + split.
      * rewrite includes_char, Hp. apply Ascii.eqb_neq in Hc. now rewrite Hc.
      * destruct Hs as [[-> ->] | (s2 & -> & ->)]; [left; now split|].
        right. now exists s2.
Qed.

Lemma splitPieces_piece sep piece :
  includes piece (String sep "") = false ->
  splitPieces sep piece = (piece, []) /\
  forall s2, splitPieces sep (piece ++ String sep s2) = (piece, split sep s2).
Proof.
  induction piece as [|c piece IH]; intros H.
  - split; [reflexivity|]. intros s2. simpl. rewrite Ascii.eqb_refl.
    unfold split. now destruct (splitPieces sep s2).
  - rewrite includes_char in H. apply orb_false_iff in H as [Hc H].
    destruct (IH H) as [IH1 IH2]. split.
    + simpl. now rewrite IH1, Hc.
    + intros s2. simpl. now rewrite IH2, Hc.
Qed.

(** X21: the middleware lets a request pass exactly when its Authorization
    header is the word Bearer, one space, and a configured key that is not
    empty and holds no space, followed by nothing or by a space and anything
    at all; the key it attaches to the request is that key.  A request
    without the header never passes. *)
Theorem validateApiKey_passes DEMO_API_KEY authorization apiKey :
  validateApiKey DEMO_API_KEY authorization = Next apiKey <->
  In apiKey (VALID_API_KEYS DEMO_API_KEY) /\
  apiKey <> "" /\
  includes apiKey " " = false /\
  exists rest,
    authorization = Some ("Bearer " ++ apiKey ++ rest) /\
    (rest = "" \/ exists more, rest = " " ++ more).
Proof.
  unfold validateApiKey. split.
  - destruct authorization as [authHeader|]; [|discriminate].
    destruct (String.eqb authHeader ""); [discriminate|].
    unfold split at 1 2.
    destruct (splitPieces " " authHeader) as [scheme pieces] eqn:E.
    cbn [nth nth_error].
    destruct pieces as [|key pieces]; [discriminate|].
    destruct (String.eqb_spec scheme "Bearer") as [-> | _]; [|discriminate].
    destruct (String.eqb_spec key "") as [_ | Hne]; [discriminate|].
    cbn [negb orb].
    destruct (arrayIncludes _ key) eqn:Hkey; [|discriminate].
    intros [= <-].
    apply splitPieces_spec in E as [_ [[H _] | (s2 & Hs2 & ->)]];
      [discriminate|].
    unfold split in Hs2.
    destruct (splitPieces " " s2) as [p ps] eqn:E2. injection Hs2 as <- <-.
    apply splitPieces_spec in E2 as [Hp Hrest].
    repeat split; [now apply arrayIncludes_In | exact Hne | exact Hp |].
    destruct Hrest as [[-> ->] | (s3 & -> & ->)].
    + exists "". rewrite append_nil_r. split; [reflexivity | now left].
    + exists (String " " s3). split; [reflexivity|]. right. now exists s3.
  - intros (Hin & Hne & Hsp & rest & -> & Hrest).
    assert (Hpieces : exists pieces,
      split " " ("Bearer " ++ apiKey ++ rest) = "Bearer" :: apiKey :: pieces).
    { unfold split.
      change ("Bearer " ++ apiKey ++ rest)
        with ("Bearer" ++ String " " (apiKey ++ rest)).
      rewrite (proj2 (splitPieces_piece " " "Bearer" eq_refl)).
      destruct Hrest as [-> | (more & ->)].
      - rewrite append_nil_r. unfold split.
        rewrite (proj1 (splitPieces_piece " " apiKey Hsp)). now exists [].
      - unfold split at 1. change (" " ++ more) with (String " " more).
        rewrite (proj2 (splitPieces_piece " " apiKey Hsp)).
        now exists (split " " more). }
    destruct Hpieces as [pieces ->]. cbn [String.eqb nth nth_error].
    apply String.eqb_neq in Hne. rewrite Hne.
    apply arrayIncludes_In in Hin. rewrite Hin. reflexivity.
Qed.

(** ** The row limit of the preview route *)













(** White space in front of the number is skipped, the no-break space
    included; what follows the digits is not read; a number from 10^21 on
    is written with an exponent, of which only the first digit is read. *)
Example previewLimit_texts :
  previewLimit (Some (String "160" " 25 rows")) = Some (Finite 25) /\
  previewLimit (Some "2.5") = Some (Finite 2) /\
  previewLimit (Some "1e+21") = Some (Finite 1) /\
  previewLimit (Some "-3") = Some (Finite 1) /\
  previewLimit (Some "ten") = None.
Proof. repeat split. Qed.

(** ** The prompt builder *)

Lemma fieldContext_app context field :
  fieldContext context field = context ++ fieldContext "" field.
Proof.
  unfold fieldContext. cbv zeta.
  destruct (truthyText (marketing_meaning (snd field)));
    destruct (truthyText (ai_instructions (snd field)));
    rewrite !append_assoc; reflexivity.
Qed.

Lemma fold_fieldContext_app fields context :
  fold_left fieldContext fields context
  = context ++ fold_left fieldContext fields "".
Proof.
  revert context. induction fields as [|field fields IH]; intros context.
  - cbn. now rewrite append_nil_r.
  - cbn [fold_left]. rewrite IH, (IH (fieldContext "" field)).
    now rewrite fieldContext_app, append_assoc.
Qed.

Lemma fieldContext_shape context field :
  exists tail,
    fieldContext context field
    = context
      ++ ("  - " ++ fst field ++ " (" ++ type (definition (snd field)) ++ ")")
      ++ tail.
Proof.
  exists
    (match truthyText (marketing_meaning (snd field)) with
     | Some meaning => newline ++ "    Meaning: " ++ meaning
     | None => ""
     end
     ++ match truthyText (ai_instructions (snd field)) with
        | Some instructions => newline ++ "    Instructions: " ++ instructions
        | None => ""
        end
     ++ validValuesText (valid_values (definition (snd field))) ++ newline).
  unfold fieldContext. cbv zeta.
  destruct (truthyText (marketing_meaning (snd field)));
    destruct (truthyText (ai_instructions (snd field)));
    rewrite !append_assoc; reflexivity.
Qed.

Lemma fold_fieldContext_mentions fields context field :
  In field fields ->
  includes (fold_left fieldContext fields context)
    ("  - " ++ fst field ++ " (" ++ type (definition (snd field)) ++ ")")
  = true.
Proof.
  revert context. induction fields as [|first fields IH]; intros context Hin.
  - destruct Hin.
  - cbn [fold_left]. destruct Hin as [-> | Hin].
    + rewrite fold_fieldContext_app. apply includes_left.
      destruct (fieldContext_shape context field) as [tail ->].
      apply includes_app.
    + now apply IH.
Qed.

Lemma tableContext_outcome context table :
  tableContext context table
  = match tableFields (snd table) with
    | None => Throw (TypeError "Cannot convert undefined or null to object")
    | Some fields =>
        Return
          (context
           ++ ("TABLE: " ++ fst table ++ newline)
           ++ match truthyText (tableDescription (snd table)) with
              | Some description => "Purpose: " ++ description ++ newline
              | None => ""
              end
           ++ (newline ++ "Fields:" ++ newline)
           ++ fold_left fieldContext fields "" ++ newline)
    end.
Proof.
  unfold tableContext. cbv zeta.
  destruct (tableFields (snd table)) as [fields|]; [|reflexivity].
  rewrite fold_fieldContext_app.
  destruct (truthyText (tableDescription (snd table)));
    rewrite !append_assoc; reflexivity.
Qed.

Lemma foldM_tableContext_returns tables context :
  Forall (fun table => tableFields (snd table) <> None) tables ->
  exists suffix,
    foldM tableContext tables context = Return (context ++ suffix) /\
    forall table, In table tables ->
      includes suffix ("TABLE: " ++ fst table ++ newline) = true /\
      forall fields field,
        tableFields (snd table) = Some fields -> In field fields ->
        includes suffix
          ("  - " ++ fst field ++ " (" ++ type (definition (snd field)) ++ ")")
        = true.
Proof.
  intros Hall. revert context.
  induction Hall as [|table tables Hfields Hall IH]; intros context.
  - exists "". cbn. rewrite append_nil_r. split; [reflexivity|].
    intros ? [].
  - cbn [foldM]. rewrite tableContext_outcome.
    destruct (tableFields (snd table)) as [fields|] eqn:E; [|congruence].
    cbn [bind].
    match goal with
    | |- context [foldM tableContext tables (context ++ ?p)] => set (piece := p)
    end.
    destruct (IH (context ++ piece)) as (suffix & -> & Hm).
    exists (piece ++ suffix). split; [now rewrite append_assoc|].
    intros t [<- | Hin].
    + split.
      * apply includes_left. subst piece. apply (includes_app "").
      * intros fields' field Hf Hin. rewrite E in Hf. injection Hf as <-.
        apply includes_left. subst piece.
        do 3 apply includes_right. apply includes_left.
        now apply fold_fieldContext_mentions.
    + destruct (Hm t Hin) as [Ht Hfs]. split.
      * now apply includes_right.
      * intros fields' field Hf Hi. apply includes_right. eauto.
Qed.

Lemma foldM_tableContext_throws tables context :
  Exists (fun table => tableFields (snd table) = None) tables ->
  foldM tableContext tables context
  = Throw (TypeError "Cannot convert undefined or null to object").
Proof.
  intros Hex. revert context.
  induction tables as [|table tables IH]; intros context.
  - inversion Hex.
  - cbn [foldM]. rewrite tableContext_outcome.
    destruct (tableFields (snd table)) as [fields|] eqn:E; [|reflexivity].
    cbn [bind]. apply IH. inversion Hex; subst; [congruence | assumption].
Qed.

Lemma tables_fields_dec (tables : list (string * TableInfo)) :
  Forall (fun table => tableFields (snd table) <> None) tables \/
  Exists (fun table => tableFields (snd table) = None) tables.
Proof.
  induction tables as [|table tables [IH | IH]].
  - left. constructor.
  - destruct (tableFields (snd table)) eqn:E.
    + left. constructor; [congruence | assumption].
    + right. now constructor.
  - right. now constructor 2.
Qed.

(** X25: the schema context is written exactly when every table of the
    document has its fields, and a table without them makes
    [buildCompactSchemaContext] throw a [TypeError]. *)
Theorem buildCompactSchemaContext_returns_iff schema :
  ((exists context, buildCompactSchemaContext schema = Return context) <->
   Forall (fun table => tableFields (snd table) <> None)
     (documentTables schema)) /\
  (forall error,
     buildCompactSchemaContext schema = Throw error ->
     error = TypeError "Cannot convert undefined or null to object").
Proof.
  unfold buildCompactSchemaContext. cbv zeta.
  destruct (tables_fields_dec (documentTables schema)) as [Hall | Hex].
  - destruct (foldM_tableContext_returns _
                (("DATABASE SCHEMA:" ++ newline)
                 ++ repeatString "=" 50 ++ newline ++ newline) Hall)
      as (suffix & E & _).
    rewrite E. split; [split; eauto | discriminate].
  - rewrite (foldM_tableContext_throws _ _ Hex). split.
    + split; [intros [context H]; discriminate|].
      intros Hall. apply Exists_exists in Hex as (table & Hin & Hnone).
      rewrite Forall_forall in Hall. now destruct (Hall table Hin).
    + now intros error [= <-].
Qed.

(** X26: the schema context names every table of the document, under
    [TABLE:], and lists every field of every table with its type. *)
Theorem buildCompactSchemaContext_mentions schema context table :
  buildCompactSchemaContext schema = Return context ->
  In table (documentTables schema) ->
  includes context ("TABLE: " ++ fst table ++ newline) = true /\
  forall fields field,
    tableFields (snd table) = Some fields -> In field fields ->
    includes context
      ("  - " ++ fst field ++ " (" ++ type (definition (snd field)) ++ ")")
    = true.
Proof.
  unfold buildCompactSchemaContext. cbv zeta.
  generalize (("DATABASE SCHEMA:" ++ newline)
              ++ repeatString "=" 50 ++ newline ++ newline).
  intros header Hret Hin.
  destruct (tables_fields_dec (documentTables schema)) as [Hall | Hex].
  - destruct (foldM_tableContext_returns _ header Hall) as (suffix & E & Hm).
    rewrite E in Hret. injection Hret as <-.
    destruct (Hm table Hin) as [Ht Hf]. split.
    + now apply includes_right.
    + intros fields field Hfields Hfield. apply includes_right. eauto.
  - now rewrite (foldM_tableContext_throws _ _ Hex) in Hret.
Qed.

Lemma buildCompactSchemaContext_mentions_witness :
  exists context,
    buildCompactSchemaContext sigV2Document = Return context /\
    includes context ("TABLE: PII" ++ newline) = true /\
    includes context "  - EMAIL (TEXT)" = true.
Proof.
  eexists. split; [reflexivity|].
  destruct (buildCompactSchemaContext_mentions sigV2Document _
              ("PII",
               mkTableInfo (Some "Contact data")
                 (Some [("HOUSEHOLD_ID", mkFieldInfo householdId None None);
                        ("EMAIL", mkFieldInfo emailField None None)]))
              eq_refl (or_intror (or_introl eq_refl))) as [Ht Hf].
  split; [exact Ht|].
  exact (Hf _ ("EMAIL", mkFieldInfo emailField None None) eq_refl
           (or_intror (or_introl eq_refl))).
Defined.

Lemma append_nil_l (a : string) : "" ++ a = a.
Proof. reflexivity. Qed.

Section PromptBuilderRuns.

Variable readPromptFile : string -> option string.
Variable toLocaleString : Z -> string.
Variable documents : DocumentStore.

(** X27: a prompt that is built starts with the system prompt, holds the
    schema context of the document of the request, and ends with the
    request of the user, word for word, under [USER REQUEST:]. *)
Theorem buildPrompt_shape params prompt :
  buildPrompt readPromptFile toLocaleString documents params = Return prompt ->
  exists schema context rules rest,
    documents (schemaId params) = Some schema /\
    buildCompactSchemaContext schema = Return context /\
    prompt
    = loadSystemPrompt readPromptFile ++ rules
      ++ (newline ++ newline ++ context) ++ rest
      ++ newline ++ newline ++ "USER REQUEST:" ++ newline ++ userPrompt params.
Proof.
  unfold buildPrompt, loadSchemaDocument.
  destruct (documents (schemaId params)) as [schema|]; [|discriminate].
  cbn [bind].
  destruct (buildCompactSchemaContext schema) as [context|] eqn:Econtext;
    [|discriminate].
  cbn [bind]. cbv zeta. intros [= <-].
  exists schema, context.
  exists
    (match email_campaign_rules schema with
     | Some rules =>
         if useCaseIs (useCase params) "email-marketing"
         then rulesText "SCHEMA-SPECIFIC EMAIL RULES:" rules else ""
     | None => ""
     end
     ++ match direct_mail_rules schema with
        | Some rules =>
            if useCaseIs (useCase params) "direct-mail"
            then rulesText "SCHEMA-SPECIFIC DIRECT MAIL RULES:" rules else ""
        | None => ""
        end).
  exists
    (match useCase params with
     | Some useCase =>
         if String.eqb (loadUseCasePrompt readPromptFile useCase) "" then ""
         else newline ++ newline ++ "USE CASE INSTRUCTIONS:" ++ newline
              ++ loadUseCasePrompt readPromptFile useCase
     | None => ""
     end
     ++ match constraints params with
        | Some constraints => constraintsText toLocaleString constraints
        | None => ""
        end).
  split; [reflexivity | split; [exact Econtext|]].
  destruct (email_campaign_rules schema) as [emailRules|];
    [destruct (useCaseIs (useCase params) "email-marketing")|];
    (destruct (direct_mail_rules schema) as [mailRules|];
     [destruct (useCaseIs (useCase params) "direct-mail")|]);
    (destruct (useCase params) as [useCase|];
     [destruct (String.eqb (loadUseCasePrompt readPromptFile useCase) "")|]);
    destruct (constraints params);
    rewrite ?append_assoc, ?append_nil_r, ?append_nil_l;
    rewrite ?append_assoc, ?append_nil_r, ?append_nil_l; reflexivity.
Qed.

(** X28: a use case outside the four known ones changes nothing: the prompt
    is the one built for a request without a use case. *)
Theorem buildPrompt_unknown_useCase request schema name limits :
  arrayIncludes
    ["email-marketing"; "direct-mail"; "lookalike"; "suppression"] name
  = false ->
  buildPrompt readPromptFile toLocaleString documents
    (mkPromptParams request schema (Some name) limits)
  = buildPrompt readPromptFile toLocaleString documents
      (mkPromptParams request schema None limits).
Proof.
  intros Hunknown.
  assert (Hemail : String.eqb name "email-marketing" = false).
  { unfold arrayIncludes in Hunknown. cbn [existsb] in Hunknown.
    now apply orb_false_iff in Hunknown as [H _]. }
  assert (Hmail : String.eqb name "direct-mail" = false).
  { unfold arrayIncludes in Hunknown. cbn [existsb] in Hunknown.
    apply orb_false_iff in Hunknown as [_ H].
    now apply orb_false_iff in H as [H _]. }
  unfold buildPrompt.
  cbn [userPrompt schemaId useCase constraints useCaseIs].
  unfold loadUseCasePrompt. rewrite Hunknown, Hemail, Hmail.
  cbn [negb]. rewrite orb_true_r. reflexivity.
Qed.

End PromptBuilderRuns.

Lemma buildPrompt_shape_witness :
  exists prompt,
    buildPrompt noPromptFiles numberToString sampleDocuments
      (mkPromptParams "Women over 40" "sig-v2" (Some "email-marketing")
         (Some (mkConstraints (Some 50000%Z) None true false)))
    = Return prompt /\
    exists schema context rules rest,
      sampleDocuments "sig-v2" = Some schema /\
      buildCompactSchemaContext schema = Return context /\
      prompt
      = loadSystemPrompt noPromptFiles ++ rules
        ++ (newline ++ newline ++ context) ++ rest
        ++ newline ++ newline ++ "USER REQUEST:" ++ newline ++ "Women over 40".
Proof.
  eexists. split; [vm_compute; reflexivity|].
  apply (buildPrompt_shape noPromptFiles numberToString sampleDocuments
           (mkPromptParams "Women over 40" "sig-v2" (Some "email-marketing")
              (Some (mkConstraints (Some 50000%Z) None true false)))).
  vm_compute; reflexivity.
Defined.

Lemma buildPrompt_unknown_useCase_witness :
  buildPrompt noPromptFiles numberToString sampleDocuments
    (mkPromptParams "Women over 40" "sig-v2" (Some "retention") None)
  = buildPrompt noPromptFiles numberToString sampleDocuments
      (mkPromptParams "Women over 40" "sig-v2" None None).
Proof.
  apply (buildPrompt_unknown_useCase noPromptFiles numberToString
           sampleDocuments "Women over 40" "sig-v2" "retention" None).
  reflexivity.
Defined.

(** ** The generate handler *)

Section GenerateHandlerRuns.

Variable JsonValue : Type.
Variable JSON_parse : string -> result JsonValue.
Variable sqlQuery : JsonValue -> JsonProperty.
Variable documents : DocumentStore.
Variable readPromptFile : string -> option string.
Variable toLocaleString : Z -> string.
Variable ANTHROPIC_API_KEY : option string.
Variable ANTHROPIC_MODEL : option string.
Variable create : string -> string -> result ModelMessage.

(** X29: a request with a prompt that names a schema the directory does not
    hold is answered 400 [Invalid schema], whatever the key and the model:
    neither is reached. *)
Theorem generateHandler_unknown_schema request prompt :
  truthyText (bodyPrompt request) = Some prompt ->
  documents
    (match bodySchema request with
     | Some schema => schema
     | None => "demo-graph-v1"
     end) = None ->
  generateHandler JsonValue JSON_parse sqlQuery documents readPromptFile
    toLocaleString ANTHROPIC_API_KEY ANTHROPIC_MODEL create request
  = Json400 "Invalid schema"
      ("Schema not found: "
       ++ match bodySchema request with
          | Some schema => schema
          | None => "demo-graph-v1"
          end).
Proof.
  intros Hprompt Hschema. unfold generateHandler. cbv zeta.
  rewrite Hprompt. unfold buildPrompt, loadSchemaDocument.
  cbn [schemaId]. rewrite Hschema. cbn [bind tryCatch].
  unfold generateCatch. cbn [message].
  match goal with
  | |- context [includes ("Schema not found: " ++ ?id) _] =>
      assert (Hfound : includes ("Schema not found: " ++ id) "Schema not found"
                       = true)
        by exact (includes_app "" "Schema not found" (": " ++ id))
  end.
  now rewrite Hfound.
Qed.

(** X30: the handler answers 200 exactly when the request has a prompt, the
    prompt for the model is built, the key is set, the model answers with a
    first content block, and the rest of the handler, [generateRouter] on
    the text of that block, answers 200; the answer then carries what
    [generateRouter] produced, and the schema, use case, token count and
    model of the request. *)
Theorem generateHandler_ok_iff request body :
  let schema :=
    match bodySchema request with
    | Some schema => schema
    | None => "demo-graph-v1"
    end in
  generateHandler JsonValue JSON_parse sqlQuery documents readPromptFile
    toLocaleString ANTHROPIC_API_KEY ANTHROPIC_MODEL create request
  = Json200 body
  <->
  exists prompt systemPrompt modelMessage responseText,
    truthyText (bodyPrompt request) = Some prompt /\
    buildPrompt readPromptFile toLocaleString documents
      (mkPromptParams prompt schema (bodyUseCase request)
         (bodyConstraints request))
    = Return systemPrompt /\
    getAnthropicClient ANTHROPIC_API_KEY = Return tt /\
    create (modelName ANTHROPIC_MODEL) systemPrompt = Return modelMessage /\
    firstText modelMessage = Return responseText /\
    generateRouter JsonValue JSON_parse sqlQuery (storeOf documents)
      responseText schema
    = Json200 (generated body, bodyValidation body) /\
    metadata body
    = mkGenerateMetadata schema
        (match truthyText (bodyUseCase request) with
         | Some useCase => useCase
         | None => "general"
         end)
        (input_tokens modelMessage + output_tokens modelMessage)
        (modelName ANTHROPIC_MODEL).
Proof.
  intros schema. unfold generateHandler. fold schema. cbv zeta.
  assert (Hcatch : forall error,
            @generateCatch (GenerateBody JsonValue) error <> Json200 body).
  { intros error. unfold generateCatch.
    destruct (includes (message error) "Schema not found"); discriminate. }
  split.
  - destruct (truthyText (bodyPrompt request)) as [prompt|];
      [|cbn; discriminate].
    destruct (buildPrompt _ _ _ _) as [systemPrompt|e] eqn:Eprompt;
      [|intros H; now apply Hcatch in H].
    cbn [bind].
    destruct (getAnthropicClient ANTHROPIC_API_KEY) as [[]|e] eqn:Ekey;
      [|intros H; now apply Hcatch in H].
    cbn [bind].
    destruct (create (modelName ANTHROPIC_MODEL) systemPrompt)
      as [modelMessage|e] eqn:Ecreate; [|intros H; now apply Hcatch in H].
    cbn [bind].
    destruct (firstText modelMessage) as [responseText|e] eqn:Etext;
      [|intros H; now apply Hcatch in H].
    cbn [bind].
    destruct (parseResponse JsonValue JSON_parse responseText)
      as [result|e] eqn:Eparse; [|intros H; now apply Hcatch in H].
    cbn [bind].
    destruct (candidateSql JsonValue sqlQuery result)
      as [candidate|e] eqn:Ecandidate; [|intros H; now apply Hcatch in H].
    cbn [bind tryCatch]. intros [= <-].
    exists prompt, systemPrompt, modelMessage, responseText.
    repeat (split; [assumption || reflexivity|]).
    split; [|reflexivity].
    unfold generateRouter. rewrite Eparse. cbn [bind].
    rewrite Ecandidate. reflexivity.
  - intros (prompt & systemPrompt & modelMessage & responseText
            & Hprompt & Hbuilt & Hkey & Hcreate & Htext & Hrouter & Hmeta).
    rewrite Hprompt, Hbuilt. cbn [bind]. rewrite Hkey. cbn [bind].
    rewrite Hcreate. cbn [bind]. rewrite Htext. cbn [bind].
    unfold generateRouter in Hrouter.
    destruct (parseResponse JsonValue JSON_parse responseText)
      as [result|e]; cbn [bind tryCatch] in *.
    + destruct (candidateSql JsonValue sqlQuery result) as [candidate|e];
        cbn [bind tryCatch] in *.
      * injection Hrouter as Hg Hv. destruct body as [g v m].
        cbn [generated bodyValidation metadata] in *. now subst.
      * destruct (includes (message e) "Schema not found"); discriminate.
    + destruct (includes (message e) "Schema not found"); discriminate.
Qed.

End GenerateHandlerRuns.

Lemma generateHandler_unknown_schema_witness :
  generateHandler (option string) parseEmptyObject sqlQueryOf
    sampleDocuments noPromptFiles numberToString None None emptyObjectModel
    (mkGenerateRequest (Some "Women over 40") (Some "orders-v9") None None)
  = Json400 "Invalid schema" "Schema not found: orders-v9".
Proof.
  apply (generateHandler_unknown_schema (option string) parseEmptyObject
           sqlQueryOf sampleDocuments noPromptFiles numberToString
           None None emptyObjectModel
           (mkGenerateRequest (Some "Women over 40") (Some "orders-v9")
              None None)
           "Women over 40"); reflexivity.
Defined.

(** An [sqlQuery] that is a number: the validator throws on it, and the
    route answers 500. *)
Example generateRouter_numeric_sqlQuery :
  generateRouter JsonProperty parseAnswer (fun property => property)
    sampleStore ("Here it is: " ++ numericAnswer) "sig-v2"
  = Json500 "Failed to generate SQL" "sql.trim is not a function".
Proof. reflexivity. Qed.

(** A run of the whole handler: the model's answer holds the empty object,
    so the candidate statement is the empty text and the verdict is
    invalid. *)
Example generateHandler_answers :
  exists body,
    generateHandler (option string) parseEmptyObject sqlQueryOf
      sampleDocuments noPromptFiles numberToString (Some "sk-ant-test") None
      emptyObjectModel
      (mkGenerateRequest (Some "Women over 40") (Some "sig-v2") None None)
    = Json200 body /\
    generated body = None /\
    isValid (bodyValidation body) = false /\
    metadata body
    = mkGenerateMetadata "sig-v2" "general" 912 "claude-sonnet-4-20250514".
Proof. eexists. split; [vm_compute; reflexivity|]. now vm_compute. Qed.
